(** * Donation Tracker: the persistence layer, the letter generator, the
    donor search and the navigation cursor of [main.cpp], embedded in Rocq.

    The program keeps its data in an SQLite file and talks to it with SQL
    text.  The embedding follows the source statement by statement:

    - a table with an [INTEGER PRIMARY KEY] is a finite map from row id to
      row ([gmap Z _]); a table scan visits the rows by ascending row id;
    - every [DonationTracker] method is a function on the database value and
      returns what the C++ method returns, together with the new database;
    - the outcome of [sqlite3_prepare_v2]/[sqlite3_step] that does not depend
      on the data (an unusable handle, an I/O error) is an explicit boolean
      input [io] of each method;
    - [std::string], [const char*] and TEXT values are byte strings
      ([string]); [int] values (ids, year, index) are integers in [Z], row
      ids being taken to stay in the range of [int], and the one place where
      the source reinterprets an [int] as [size_t] has its wrap-around
      written out;
    - [double] amounts, SQLite's [SUM] over them, Qt's number and date
      formatting, [QString::arg] and the matching of a [QRegularExpression]
      are parameters of the development: the source only passes values
      through them. *)

From Stdlib Require Import ZArith String Ascii DecimalString.
From stdpp Require Import gmap strings list fin_maps sorting.

Open Scope Z_scope.

(** ** Text: C strings, case folding, [LIKE], [SUBSTR], [std::to_string] *)

Module Text.

(** [s.c_str()] handed to [sqlite3_bind_text] with length [-1]: the bytes
    before the first NUL. *)
Fixpoint c_str (s : string) : string :=
  match s with
  | EmptyString => EmptyString
  | String c r => if Ascii.eqb c "000" then EmptyString else String c (c_str r)
  end.

(** [std::to_string(int)]: decimal digits, with a leading [-] below zero. *)
Definition to_string (z : Z) : string := NilZero.string_of_int (Z.to_int z).

Definition is_upper (c : ascii) : bool :=
  let n := N_of_ascii c in (N.leb 65 n && N.leb n 90)%bool.

(** SQLite's [sqlite3Tolower]: only [A]..[Z] are folded. *)
Definition tolower (c : ascii) : ascii :=
  if is_upper c then ascii_of_N (N_of_ascii c + 32) else c.

(** SQL [LOWER(X)] of the default build: byte-wise, ASCII only. *)
Fixpoint LOWER (s : string) : string :=
  match s with
  | EmptyString => EmptyString
  | String c r => String (tolower c) (LOWER r)
  end.

Definition is_7bit (c : ascii) : bool := N.ltb (N_of_ascii c) 128.

Fixpoint all_chars (p : ascii -> bool) (s : string) : bool :=
  match s with
  | EmptyString => true
  | String c r => (p c && all_chars p r)%bool
  end.

(** [QString::fromStdString(s).toLower().toStdString()].  Qt folds every
    cased Unicode letter; on 7-bit text that is the fold of [A]..[Z].  The
    model is this byte-wise fold, and the statements that depend on it are
    made for 7-bit terms only. *)
Definition toLower (s : string) : string := LOWER s.

(** A byte that starts a multi-byte UTF-8 character, and a continuation
    byte, as SQLite's [SQLITE_SKIP_UTF8] and [sqlite3Utf8Read] tell them
    apart. *)
Definition is_lead (c : ascii) : bool := N.leb 192 (N_of_ascii c).
Definition is_cont (c : ascii) : bool :=
  let n := N_of_ascii c in (N.leb 128 n && N.ltb n 192)%bool.

Fixpoint take_cont (s : string) : string :=
  match s with
  | String c r => if is_cont c then String c (take_cont r) else EmptyString
  | EmptyString => EmptyString
  end.

Fixpoint drop_cont (s : string) : string :=
  match s with
  | String c r => if is_cont c then drop_cont r else s
  | EmptyString => EmptyString
  end.

(** SQL [X LIKE P] with the default settings (no ESCAPE, case-insensitive
    on ASCII letters): [%] matches any run of characters, [_] matches one
    character, any other pattern character matches itself up to ASCII
    case.  The first argument is the pattern.  The one character [_] takes
    is what [sqlite3Utf8Read] reads: a byte below 0xC0, or a byte from 0xC0
    with the continuation bytes that follow it.  Literal characters are
    compared byte by byte, which on well-formed UTF-8 is the comparison of
    code points SQLite makes.  SQLite's bound on the length of a pattern
    (50 000 bytes unless reconfigured) is left out. *)
Fixpoint like (p t : string) {struct p} : bool :=
  match p with
  | EmptyString => match t with EmptyString => true | _ => false end
  | String c p' =>
      if Ascii.eqb c "%" then
        (fix star (t : string) : bool :=
           (like p' t ||
            match t with
            | EmptyString => false
            | String _ t' => star t'
            end)%bool) t
      else
        match t with
        | EmptyString => false
        | String c' t' =>
            if Ascii.eqb c "_"
            then like p' (if is_lead c' then drop_cont t' else t')
            else (Ascii.eqb (tolower c) (tolower c') && like p' t')%bool
        end
  end.

(** SQL [SUBSTR(X, 1, n)] on TEXT: the first [n] characters, a character
    being a byte below 0xC0 or a byte from 0xC0 with the continuation
    bytes that follow it. *)
Fixpoint SUBSTR1 (n : nat) (s : string) {struct n} : string :=
  match n with
  | O => EmptyString
  | S n' =>
      match s with
      | EmptyString => EmptyString
      | String c r =>
          if is_lead c
          then String c (take_cont r ++ SUBSTR1 n' (drop_cont r))
          else String c (SUBSTR1 n' r)
      end
  end.

(** [t] occurs in [s] as a contiguous run of bytes. *)
Definition occurs_in (t s : string) : Prop :=
  exists pre post : string, s = (pre ++ t ++ post)%string.

Fixpoint occurs_inb (t s : string) : bool :=
  (String.prefix t s ||
   match s with
   | EmptyString => false
   | String _ r => occurs_inb t r
   end)%bool.

Definition is_wildcard (c : ascii) : bool :=
  (Ascii.eqb c "%" || Ascii.eqb c "_")%bool.

(** What a search term must be for [LIKE] to read it literally and for
    [toLower] to be Qt's: 7-bit, no [%], no [_], no NUL. *)
Definition plain_char (c : ascii) : bool :=
  (is_7bit c && negb (is_wildcard c) && negb (Ascii.eqb c "000"))%bool.

Definition plain (s : string) : bool := all_chars plain_char s.

(** What the characters of a decimal numeral are, as far as [SUBSTR] and
    [c_str] care: below 0xC0 and not NUL. *)
Definition year_char (c : ascii) : bool :=
  (negb (is_lead c) && negb (Ascii.eqb c "000"))%bool.

(** [QString::split(sep)] for a non-empty separator: the pieces between the
    occurrences of [sep], found from left to right without overlap.
    [split_at sep skip acc s] has [acc] as the piece read so far and [skip]
    bytes of a separator still to pass. *)
Fixpoint split_at (sep : string) (skip : nat) (acc s : string) : list string :=
  match s with
  | EmptyString => [acc]
  | String c r =>
      match skip with
      | S k => split_at sep k acc r
      | O =>
          if String.prefix sep s
          then acc :: split_at sep (Nat.pred (String.length sep)) EmptyString r
          else split_at sep O (acc ++ String c EmptyString) r
      end
  end.

(** [s.split(sep, Qt::SkipEmptyParts)]. *)
Definition split_skip_empty (sep s : string) : list string :=
  filter (fun p => p <> EmptyString) (split_at sep O EmptyString s).

Definition no_nul (s : string) : bool :=
  all_chars (fun c => negb (Ascii.eqb c "000")) s.




End Text.

(** ** The SQLite store *)

Module Sqlite.

(** [PRAGMA foreign_keys].  A connection made by [sqlite3_open] has
    foreign-key enforcement off until the pragma turns it on; the program
    opens its connection in the [DonationTracker] constructor and never
    issues the pragma. *)
Definition foreign_keys : bool := false.

Definition key_le {A : Type} (a b : Z * A) : Prop := a.1 <= b.1.

Global Instance key_le_dec {A : Type} (a b : Z * A) : Decision (key_le a b) :=
  Z_le_dec a.1 b.1.

(** A table scan: the rows by ascending row id. *)
Definition scan {A : Type} (t : gmap Z A) : list (Z * A) :=
  merge_sort key_le (map_to_list t).

Definition max_rowid {A : Type} (t : gmap Z A) : Z :=
  foldr Z.max 0 (map_to_list t).*1.

(** The row id an [AUTOINCREMENT] table gives to a new row: one more than
    the largest id the table holds or has ever held. *)
Definition next_rowid {A : Type} (seq : Z) (t : gmap Z A) : Z :=
  1 + Z.max seq (max_rowid t).

(** [GROUP BY] on an integer key: the groups by ascending key, each with
    its rows in the order of the input. *)
Definition group_by {A : Type} (key : A -> Z) (rows : list A) : list (list A) :=
  map (fun k => filter (fun r => key r = k) rows)
      (merge_sort Z.le (remove_dups (map key rows))).

End Sqlite.

(** ** Rows and the database value *)

Record Donor := mkDonor {
  first_name : string; last_name : string; street : string; city : string;
  state : string; zip : string; country : string;
  phone : string; email : string }.

Record Donation {real : Type} := mkDonation {
  donor_id : Z; amount : real; date : string; payment_method : string }.
Arguments Donation : clear implicits.
Arguments mkDonation {real} _ _ _ _.

Record Db {real : Type} := mkDb {
  donors : gmap Z Donor;
  donors_seq : Z;
  donations : gmap Z (Donation real);
  donations_seq : Z;
  organization : option (string * string) }.
Arguments Db : clear implicits.
Arguments mkDb {real} _ _ _ _ _.

(** The file created by [sqlite3_open] and [createTables] on first run. *)
Definition createTables {real : Type} : Db real := mkDb ∅ 0 ∅ 0 None.

(** A [QTableWidget] as the core sees it: rows of cell text. *)
Definition QTable : Type := list (list string).

(** The files under the working directory: path to content. *)
Abbreviation Files := (gmap string string).

Definition nl : string := String "010" EmptyString.

(** [ORDER BY first_name, last_name] (BINARY collation). *)
Definition name_le (a b : Z * Donor) : Prop :=
  match String.compare (first_name a.2) (first_name b.2) with
  | Lt => True
  | Eq => String.leb (last_name a.2) (last_name b.2) = true
  | Gt => False
  end.

Global Instance name_le_dec (a b : Z * Donor) : Decision (name_le a b).
Proof.
  unfold name_le. destruct (String.compare _ _); [apply _ | left; exact I | right; tauto].
Defined.

(** [ORDER BY date DESC]. *)
Definition date_ge {real : Type} (a b : Z * Donation real) : Prop :=
  String.leb (date b.2) (date a.2) = true.

Global Instance date_ge_dec {real : Type} (a b : Z * Donation real) :
  Decision (date_ge a b).
Proof. unfold date_ge. apply _. Defined.

(** ** [DonationTracker]: the methods of the persistence layer *)

Module DonationTracker.
Import Text Sqlite.

Section Methods.

(** The C++ [double] and what the libraries compute on it. *)
Context {real : Type}.
(** SQLite's [SUM] over the REAL values of a group, in row order. *)
Variable SUM : list real -> real.
(** [QString::number(x, 'f', 2)]. *)
Variable number_f2 : real -> string.
(** [QDate::currentDate().toString("MMMM d, yyyy")]. *)
Variable today : string.
(** [QString::arg]: [arg s a] is [s.arg(a)]. *)
Variable arg : string -> string -> string.

Abbreviation Db := (Db real).
Abbreviation Donation := (Donation real).

(** *** Donors *)

Definition bind_donor (d : Donor) : Donor :=
  mkDonor (c_str (first_name d)) (c_str (last_name d)) (c_str (street d))
          (c_str (city d)) (c_str (state d)) (c_str (zip d))
          (c_str (country d)) (c_str (phone d)) (c_str (email d)).

(** [INSERT INTO donors (...) VALUES (?, ..., ?)]. *)
Definition addDonor (io : bool) (db : Db) (d : Donor) : bool * Db :=
  if io then
    let id := next_rowid (donors_seq db) (donors db) in
    (true, mkDb (<[id := bind_donor d]> (donors db)) id
                (donations db) (donations_seq db) (organization db))
  else (false, db).

(** [UPDATE donors SET ... WHERE id=?]: the statement is done, and
    [true] is returned, whether or not a row has that id. *)
Definition updateDonor (io : bool) (db : Db) (id : Z) (d : Donor) : bool * Db :=
  if io then
    (true, mkDb (match donors db !! id with
                 | Some _ => <[id := bind_donor d]> (donors db)
                 | None => donors db
                 end)
                (donors_seq db) (donations db) (donations_seq db)
                (organization db))
  else (false, db).

(** What [ON DELETE CASCADE] does to the child table when the parent row
    [id] goes, if foreign keys are enforced. *)
Definition cascade (id : Z) (t : gmap Z Donation) : gmap Z Donation :=
  filter (fun r => donor_id r.2 <> id) t.

(** [DELETE FROM donors WHERE id=?]. *)
Definition deleteDonor (io : bool) (db : Db) (id : Z) : bool * Db :=
  if io then
    (true, mkDb (delete id (donors db)) (donors_seq db)
                (if foreign_keys
                 then match donors db !! id with
                      | Some _ => cascade id (donations db)
                      | None => donations db
                      end
                 else donations db)
                (donations_seq db) (organization db))
  else (false, db).

(** [SELECT first_name, ..., email FROM donors WHERE id=?]. *)
Definition getDonorDetails (io : bool) (db : Db) (id : Z) : option Donor :=
  if io then donors db !! id else None.

(** [SELECT id FROM donors ORDER BY id]. *)
Definition getAllDonorIds (io : bool) (db : Db) : list Z :=
  if io then merge_sort Z.le (scan (donors db)).*1 else [].

(** *** Donations *)

(** [INSERT INTO donations (donor_id, amount, date, payment_method)
    VALUES (?, ?, ?, ?)].  With foreign keys enforced the step would end
    in a constraint error when no donor has [donorId]. *)
Definition addDonation (io : bool) (db : Db)
    (donorId : Z) (amt : real) (dt pm : string) : bool * Db :=
  if io then
    if (foreign_keys && bool_decide (donors db !! donorId = None))%bool
    then (false, db)
    else
      let id := next_rowid (donations_seq db) (donations db) in
      (true, mkDb (donors db) (donors_seq db)
                  (<[id := mkDonation donorId amt (c_str dt) (c_str pm)]>
                     (donations db))
                  id (organization db))
  else (false, db).

(** [DELETE FROM donations WHERE id=?]. *)
Definition deleteDonation (io : bool) (db : Db) (id : Z) : bool * Db :=
  if io then
    (true, mkDb (donors db) (donors_seq db) (delete id (donations db))
                (donations_seq db) (organization db))
  else (false, db).

Definition donation_cells (r : Z * Donation) : list string :=
  [to_string r.1; to_string (donor_id r.2); number_f2 (amount r.2);
   date r.2; payment_method r.2].

(** [SELECT id, donor_id, amount, date, payment_method FROM donations
    WHERE donor_id=? ORDER BY date DESC], written into the table; the
    table is left as it was when the statement cannot be prepared. *)
Definition getDonationsForDonor (io : bool) (db : Db) (donorId : Z)
    (table : QTable) : QTable :=
  if io then
    map donation_cells
        (merge_sort date_ge
           (filter (fun r => donor_id r.2 = donorId) (scan (donations db))))
  else table.

(** *** Organization *)

(** [SELECT name, address FROM organization WHERE id=1]. *)
Definition getOrganizationDetails (io : bool) (db : Db) : option (string * string) :=
  if io then organization db else None.

(** [INSERT OR REPLACE INTO organization (id, name, address)
    VALUES (1, ?, ?)]. *)
Definition setOrganizationDetails (io : bool) (db : Db)
    (name address : string) : bool * Db :=
  if io then
    (true, mkDb (donors db) (donors_seq db) (donations db)
                (donations_seq db) (Some (c_str name, c_str address)))
  else (false, db).

(** *** Search *)

Definition donor_cells (r : Z * Donor) : list string :=
  [to_string r.1; first_name r.2; last_name r.2; street r.2; city r.2;
   state r.2; zip r.2; country r.2; phone r.2; email r.2].

(** The eight columns of the [WHERE] clause, in its order. *)
Definition searched_fields (d : Donor) : list string :=
  [first_name d; last_name d; email d; phone d; city d; state d; zip d;
   country d].

(** ["%" + QString::fromStdString(searchTerm).toLower().toStdString()
    + "%"], bound through [c_str()]. *)
Definition lowerSearchTerm (searchTerm : string) : string :=
  c_str ("%" ++ toLower searchTerm ++ "%")%string.

(** [LOWER(first_name) LIKE ? OR ... OR LOWER(country) LIKE ?]. *)
Definition where_like (pattern : string) (d : Donor) : bool :=
  existsb (fun f => like pattern (LOWER f)) (searched_fields d).

Definition is_empty (s : string) : bool :=
  match s with EmptyString => true | _ => false end.

(** The rows the statement of [searchDonors] yields. *)
Definition search_rows (db : Db) (searchTerm : string) (includeAll : bool)
    : list (Z * Donor) :=
  if (includeAll || is_empty searchTerm)%bool
  then merge_sort name_le (scan (donors db))
  else filter (fun r => where_like (lowerSearchTerm searchTerm) r.2 = true)
              (scan (donors db)).

Definition searchDonors (io : bool) (db : Db) (searchTerm : string)
    (table : QTable) (includeAll : bool) : QTable :=
  if io then map donor_cells (search_rows db searchTerm includeAll)
  else table.

(** *** Letters *)

Definition JoinRow : Type := (Z * Donor) * (Z * Donation).

(** [FROM donors d JOIN donations don ON d.id = don.donor_id]. *)
Definition join_donations (db : Db) : list JoinRow :=
  flat_map (fun d => map (fun don => (d, don))
                       (filter (fun don => donor_id don.2 = d.1)
                               (scan (donations db))))
           (scan (donors db)).

(** [WHERE SUBSTR(don.date, 1, 4) = ?], the parameter being
    [std::to_string(year).c_str()]. *)
Definition where_year (year : Z) (r : JoinRow) : Prop :=
  SUBSTR1 4 (date r.2.2) = c_str (to_string year).

Global Instance where_year_dec year r : Decision (where_year year r).
Proof. unfold where_year. apply _. Defined.

(** One result row of the letter query: the donor's columns and
    [SUM(don.amount)]. *)
Definition letter_row (g : list JoinRow) : option (Donor * real) :=
  match g with
  | [] => None
  | r :: _ => Some (r.1.2, SUM (map (fun r => amount r.2.2) g))
  end.

(** [SELECT d.first_name, ..., SUM(don.amount) FROM donors d JOIN
    donations don ON d.id = don.donor_id WHERE SUBSTR(don.date, 1, 4) = ?
    GROUP BY d.id]. *)
Definition letter_rows (db : Db) (year : Z) : list (Donor * real) :=
  omap letter_row
       (group_by (fun r : JoinRow => r.1.1)
                 (filter (where_year year) (join_donations db))).

(** [QString("letters/%1_%2_%3_donation_letter.txt")
      .arg(firstName).arg(lastName).arg(year)]. *)
Definition fileName (firstName lastName : string) (year : Z) : string :=
  arg (arg (arg "letters/%1_%2_%3_donation_letter.txt" firstName) lastName)
      (to_string year).

(** The text streamed into the letter. *)
Definition letter_text (orgName orgAddress : string) (year : Z)
    (d : Donor) (totalAmount : real) : string :=
  (orgName ++ nl ++
   orgAddress ++ nl ++ nl ++
   today ++ nl ++ nl ++
   first_name d ++ " " ++ last_name d ++ nl ++
   street d ++ nl ++
   city d ++ ", " ++ state d ++ " " ++ zip d ++ nl ++
   country d ++ nl ++ nl ++
   "Dear " ++ first_name d ++ "," ++ nl ++ nl ++
   "Thank you for your generous total donation of $" ++
   number_f2 totalAmount ++ " to " ++ orgName ++ " in " ++
   to_string year ++ "." ++ nl ++
   "Your support makes a significant difference to our mission." ++ nl ++ nl ++
   "Sincerely," ++ nl ++
   orgName ++ nl)%string.

(** The state of the loop over the result rows: the [success] flag, the
    files, and the paths given to [QFile::open] so far, oldest first. *)
Record LetterRun := mkRun {
  success : bool; files : Files; attempted : list string }.

(** One turn of the [while] loop.  [can_open path] is whether
    [file.open(WriteOnly | Text)] succeeds on [path]; the source checks
    nothing after that, and a file that opens is taken to receive the
    text. *)
Definition letter_step (can_open : string -> bool)
    (orgName orgAddress : string) (year : Z)
    (st : LetterRun) (row : Donor * real) : LetterRun :=
  let path := fileName (first_name row.1) (last_name row.1) year in
  if can_open path
  then mkRun (success st)
             (<[path := letter_text orgName orgAddress year row.1 row.2]>
                (files st))
             (attempted st ++ [path])
  else mkRun false (files st) (attempted st ++ [path]).

Definition generateDonationLetters (io : bool) (can_open : string -> bool)
    (db : Db) (fs : Files) (year : Z) : LetterRun :=
  if io then
    let org := default (EmptyString, EmptyString)
                       (getOrganizationDetails io db) in
    foldl (letter_step can_open org.1 org.2 year)
          (mkRun true fs []) (letter_rows db year)
  else mkRun false fs [].

(** *** The other statements on donations *)

(** [UPDATE donations SET donor_id=?, amount=?, date=?, payment_method=?
    WHERE id=?].  With foreign keys enforced the step would end in a
    constraint error when the row exists and no donor has [donorId]. *)
Definition updateDonation (io : bool) (db : Db) (id donorId : Z) (amt : real)
    (dt pm : string) : bool * Db :=
  if io then
    match donations db !! id with
    | Some _ =>
        if (foreign_keys && bool_decide (donors db !! donorId = None))%bool
        then (false, db)
        else (true, mkDb (donors db) (donors_seq db)
                         (<[id := mkDonation donorId amt (c_str dt) (c_str pm)]>
                            (donations db))
                         (donations_seq db) (organization db))
    | None => (true, db)
    end
  else (false, db).

(** The rows [getDonationsForDonor] turns into cells. *)
Definition donations_of (db : Db) (donorId : Z) : list (Z * Donation) :=
  merge_sort date_ge
    (filter (fun r => donor_id r.2 = donorId) (scan (donations db))).

(** What the [sqlite_sequence] row of the donors table is for: no donor has
    an id above the recorded one, which is not negative. *)
Definition seq_ok (db : Db) : Prop :=
  0 <= donors_seq db /\
  forall k, is_Some (donors db !! k) -> 1 <= k <= donors_seq db.

(** *** The letter rows in the words of the specification *)

(** The donations owned by donor [id] whose date string has the decimal
    text of [year] as its leading four characters. *)
Definition year_donations (db : Db) (year id : Z) : list (Z * Donation) :=
  filter (fun don => donor_id don.2 = id /\
                     String.substring 0 4 (date don.2) = to_string year)
         (scan (donations db)).

(** By ascending donor id: nothing for a donor without such a donation,
    otherwise the donor with the [SUM] of the amounts of those donations. *)
Definition letters_spec (db : Db) (year : Z) : list (Donor * real) :=
  omap (fun d : Z * Donor =>
          match year_donations db year d.1 with
          | [] => None
          | ms => Some (d.2, SUM (map (fun don => amount don.2) ms))
          end)
       (scan (donors db)).

(** The letter row of one donor, if the donor has one. *)
Definition letter_of (db : Db) (year : Z) (d : Z * Donor) : option (Donor * real) :=
  match year_donations db year d.1 with
  | [] => None
  | ms => Some (d.2, SUM (map (fun don => amount don.2) ms))
  end.

End Methods.

End DonationTracker.


(** ** [OrganizationDialog] and the address text *)

Module OrganizationDialog.
Import Text.

(** The line edits of the dialog, as UTF-8 text. *)
Record Fields := mkFields {
  nameEdit : string; streetEdit : string; cityEdit : string;
  stateEdit : string; zipEdit : string; countryEdit : string }.

Definition nonempty (s : string) : bool :=
  match s with EmptyString => false | _ => true end.

Definition validateInputs (f : Fields) : bool :=
  (nonempty (nameEdit f) && nonempty (streetEdit f) && nonempty (cityEdit f) &&
   nonempty (stateEdit f) && nonempty (zipEdit f) && nonempty (countryEdit f))%bool.

(** [MainWindow::setOrganization], saving: the address fields joined into
    the one text that is stored. *)
Definition address_of (f : Fields) : string :=
  (streetEdit f ++ ", " ++ cityEdit f ++ ", " ++ stateEdit f ++ " " ++
   zipEdit f ++ ", " ++ countryEdit f)%string.

(** [MainWindow::setOrganization], pre-filling: the stored address split
    back into the line edits.  A line edit that is not set stays empty. *)
Definition prefill (name address : string) : Fields :=
  match split_skip_empty ", " address with
  | p0 :: p1 :: p2 :: p3 :: _ =>
      match split_skip_empty " " p2 with
      | [st; zp] => mkFields name p0 p1 st zp p3
      | _ => mkFields name p0 p1 p2 EmptyString p3
      end
  | _ => mkFields name address EmptyString EmptyString EmptyString EmptyString
  end.

(** Fields that come back from the stored text as they were entered: none
    is empty or holds a NUL, [", "] occurs neither in street, city and
    country nor in state and ZIP code put together, and state and ZIP code
    hold no space. *)
Definition round_trips (f : Fields) : bool :=
  (validateInputs f &&
   no_nul (nameEdit f) && no_nul (address_of f) &&
   negb (occurs_inb ", " (streetEdit f)) &&
   negb (occurs_inb ", " (cityEdit f)) &&
   negb (occurs_inb ", " (countryEdit f)) &&
   negb (occurs_inb ", " (stateEdit f ++ " " ++ zipEdit f)) &&
   negb (occurs_inb " " (stateEdit f)) &&
   negb (occurs_inb " " (zipEdit f)))%bool.

End OrganizationDialog.

(** ** [MainWindow]: the navigation cursor *)

(** ** The donor dialog *)

Module DonorDialog.

Section Validation.

(** [emailRegex.match(text).hasMatch()] for the expression
    [\b[A-Z0-9._%+-]+@[A-Z0-9.-]+\.[A-Z]{2,4}\b] with
    [CaseInsensitiveOption]: whether some part of the text matches.  The
    matching is Qt's. *)
Variable emailRegex : string -> bool.

(** The nine line edits are the fields of a [Donor], as UTF-8 text: none
    may be empty, and the e-mail text must have a match. *)
Definition validateInputs (d : Donor) : bool :=
  if (negb (OrganizationDialog.nonempty (first_name d)) ||
      negb (OrganizationDialog.nonempty (last_name d)) ||
      negb (OrganizationDialog.nonempty (street d)) ||
      negb (OrganizationDialog.nonempty (city d)) ||
      negb (OrganizationDialog.nonempty (state d)) ||
      negb (OrganizationDialog.nonempty (zip d)) ||
      negb (OrganizationDialog.nonempty (country d)) ||
      negb (OrganizationDialog.nonempty (phone d)) ||
      negb (OrganizationDialog.nonempty (email d)))%bool
  then false
  else if negb (emailRegex (email d)) then false
  else true.

End Validation.

End DonorDialog.

Module MainWindow.
Import Text Sqlite.

Section Cursor.

Context {real : Type}.

(** The match of the e-mail expression, for [DonorDialog::validateInputs]. *)
Variable emailRegex : string -> bool.

(** The members of [MainWindow] the cursor logic reads and writes.  The
    widgets are left out: the slots only copy values into them. *)
Record MainWindow := mkWindow {
  tracker : Db real;
  donorIds : list Z;
  currentDonorIndex : Z;
  currentDonorId : Z }.

(** [static_cast<size_t>(x)] and arithmetic in [size_t] (64 bits). *)
Definition size_t (x : Z) : Z := x mod 2 ^ 64.

(** [std::distance(v.begin(), std::find(v.begin(), v.end(), x))], or [None]
    when [std::find] returns [v.end()]. *)
Fixpoint find_distance (x : Z) (v : list Z) : option Z :=
  match v with
  | [] => None
  | y :: v' => if Z.eqb y x then Some 0 else option_map Z.succ (find_distance x v')
  end.

(** [v[i]] for a vector [v]; [None] is a read outside the vector, which the
    C++ leaves undefined. *)
Definition at_index (v : list Z) (i : Z) : option Z :=
  if Z.ltb i 0 then None else v !! Z.to_nat i.

Definition populateDonorIds (io : bool) (w : MainWindow) : MainWindow :=
  let ids := DonationTracker.getAllDonorIds io (tracker w) in
  mkWindow (tracker w) ids
           (if Z.eqb (currentDonorId w) (-1) then currentDonorIndex w
            else match find_distance (currentDonorId w) ids with
                 | Some i => i
                 | None => -1
                 end)
           (currentDonorId w).

Definition loadDonor (io : bool) (w : MainWindow) (id : Z) : MainWindow :=
  mkWindow (tracker w) (donorIds w) (currentDonorIndex w)
           (if Z.eqb id (-1) then -1
            else match DonationTracker.getDonorDetails io (tracker w) id with
                 | Some _ => id
                 | None => -1
                 end).

Definition set_index (w : MainWindow) (i : Z) : MainWindow :=
  mkWindow (tracker w) (donorIds w) i (currentDonorId w).

Definition loadFirstDonor (io : bool) (w : MainWindow) : MainWindow :=
  let w := populateDonorIds io w in
  match donorIds w with
  | id :: _ => loadDonor io (set_index w 0) id
  | [] => loadDonor io w (-1)
  end.

Definition loadPreviousDonor (io : bool) (w : MainWindow) : option MainWindow :=
  if Z.ltb 0 (currentDonorIndex w) then
    let w := set_index w (currentDonorIndex w - 1) in
    option_map (loadDonor io w) (at_index (donorIds w) (currentDonorIndex w))
  else Some w.

Definition loadNextDonor (io : bool) (w : MainWindow) : option MainWindow :=
  if Z.ltb (size_t (currentDonorIndex w))
           (size_t (Z.of_nat (length (donorIds w)) - 1)) then
    let w := set_index w (currentDonorIndex w + 1) in
    option_map (loadDonor io w) (at_index (donorIds w) (currentDonorIndex w))
  else Some w.

Definition loadLastDonor (io : bool) (w : MainWindow) : MainWindow :=
  let w := populateDonorIds io w in
  match last (donorIds w) with
  | Some id => loadDonor io (set_index w (Z.of_nat (length (donorIds w)) - 1)) id
  | None => loadDonor io w (-1)
  end.

Definition onDonorTableItemClicked (io : bool) (w : MainWindow) (donorId : Z)
    : MainWindow :=
  match find_distance donorId (donorIds w) with
  | Some i => loadDonor io (set_index w i) donorId
  | None => w
  end.

(** The constructor: the members are initialised to [-1], then
    [populateDonorIds(); loadFirstDonor();]. *)
Definition new (io : bool) (db : Db real) : MainWindow :=
  loadFirstDonor io (populateDonorIds io (mkWindow db [] (-1) (-1))).

Definition set_tracker (w : MainWindow) (db : Db real) : MainWindow :=
  mkWindow db (donorIds w) (currentDonorIndex w) (currentDonorId w).

(** The slot [addDonor], once the dialog is accepted with the fields [d]:
    nothing happens unless [validateInputs] accepts them. *)
Definition addDonor (io : bool) (w : MainWindow) (d : Donor) : MainWindow :=
  if DonorDialog.validateInputs emailRegex d then
    let r := DonationTracker.addDonor io (tracker w) d in
    if r.1 then loadLastDonor io (populateDonorIds io (set_tracker w r.2))
    else w
  else w.

(** The slot [deleteDonor], once the user has confirmed. *)
Definition deleteDonor (io : bool) (w : MainWindow) : MainWindow :=
  if Z.eqb (currentDonorId w) (-1) then w
  else
    let r := DonationTracker.deleteDonor io (tracker w) (currentDonorId w) in
    if r.1 then loadFirstDonor io (populateDonorIds io (set_tracker w r.2))
    else w.

(** The slot [editDonor], once the dialog is accepted with the fields [d]:
    nothing happens unless [validateInputs] accepts them. *)
Definition editDonor (io : bool) (w : MainWindow) (d : Donor) : MainWindow :=
  if Z.eqb (currentDonorId w) (-1) then w
  else
    match DonationTracker.getDonorDetails io (tracker w) (currentDonorId w) with
    | Some _ =>
        if DonorDialog.validateInputs emailRegex d then
          let r :=
            DonationTracker.updateDonor io (tracker w) (currentDonorId w) d in
          if r.1 then loadDonor io (set_tracker w r.2) (currentDonorId w)
          else w
        else w
    | None => w
    end.

(** What the user can do to the window between two looks at it. *)
Inductive Event :=
| AddDonor (io : bool) (d : Donor)
| EditDonor (io : bool) (d : Donor)
| DeleteDonor (io : bool)
| First | Previous | Next | Last
| Click (donorId : Z)
| Restart.

(** One event; the queries behind the navigation are taken to run. *)
Definition handle (w : MainWindow) (e : Event) : option MainWindow :=
  match e with
  | AddDonor io d => Some (addDonor io w d)
  | EditDonor io d => Some (editDonor io w d)
  | DeleteDonor io => Some (deleteDonor io w)
  | First => Some (loadFirstDonor true w)
  | Previous => loadPreviousDonor true w
  | Next => loadNextDonor true w
  | Last => Some (loadLastDonor true w)
  | Click id => Some (onDonorTableItemClicked true w id)
  | Restart => Some (new true (tracker w))
  end.

(** A session: the window opened on a fresh file, then the events. *)
Fixpoint run_from (w : MainWindow) (es : list Event) : option MainWindow :=
  match es with
  | [] => Some w
  | e :: es' => match handle w e with
                | Some w' => run_from w' es'
                | None => None
                end
  end.

Definition run (es : list Event) : option MainWindow :=
  run_from (new true createTables) es.

(** The cursor between two events: on nothing ([-1]) over an empty
    sequence, or on a position of the sequence.  The sequence is a
    [std::vector<int>], which holds fewer than 2^63 elements. *)
Definition positioned (w : MainWindow) : Prop :=
  0 <= currentDonorIndex w < Z.of_nat (length (donorIds w)).

Definition cursor_ok (w : MainWindow) : Prop :=
  Z.of_nat (length (donorIds w)) < 2 ^ 63 /\
  ((donorIds w = [] /\ currentDonorIndex w = -1) \/ positioned w).

(** The [enabled] flags of the four navigation buttons. *)
Record Buttons := mkButtons {
  firstButton : bool; previousButton : bool;
  nextButton : bool; lastButton : bool }.

(** The flags [updateNavigationButtonStates] sets. *)
Definition updateNavigationButtonStates (w : MainWindow) : Buttons :=
  match donorIds w with
  | [] => mkButtons false false false false
  | _ :: _ =>
      let back := Z.ltb 0 (currentDonorIndex w) in
      let forth := Z.ltb (size_t (currentDonorIndex w))
                         (size_t (Z.of_nat (length (donorIds w)) - 1)) in
      mkButtons back back forth forth
  end.

(** The slot [setOrganization], once the dialog is accepted with the
    fields [f]: the database afterwards. *)
Definition setOrganization (io : bool) (db : Db real)
    (f : OrganizationDialog.Fields) : Db real :=
  if OrganizationDialog.validateInputs f
  then (DonationTracker.setOrganizationDetails io db
          (OrganizationDialog.nameEdit f) (OrganizationDialog.address_of f)).2
  else db.

(** What the dialog of [setOrganization] shows when it opens. *)
Definition setOrganization_prefill (io : bool) (db : Db real)
    : OrganizationDialog.Fields :=
  match DonationTracker.getOrganizationDetails io db with
  | Some (name, address) => OrganizationDialog.prefill name address
  | None => OrganizationDialog.mkFields EmptyString EmptyString EmptyString
              EmptyString EmptyString EmptyString
  end.

(** What every slot leaves behind: the sequence is the one the store gives,
    row ids are positive, and either the sequence is empty with nothing
    loaded, or the donor at the index is the one loaded. *)
Definition in_sync (w : MainWindow) : Prop :=
  donorIds w = DonationTracker.getAllDonorIds true (tracker w) /\
  (forall k, is_Some (donors (tracker w) !! k) -> 1 <= k) /\
  ((donorIds w = [] /\ currentDonorIndex w = -1 /\ currentDonorId w = -1) \/
   at_index (donorIds w) (currentDonorIndex w) = Some (currentDonorId w)).

End Cursor.

Arguments MainWindow : clear implicits.

End MainWindow.


(** ** An instance to run the definitions on

    Amounts that are whole cents, held as an integer number of cents: the
    values the amount field of the donation dialog lets through.  [SUM] adds
    them, [number_f2] prints them with two decimals, and [arg] fills the
    lowest of the one-digit place markers, which are the ones the program
    uses. *)

Module Cents.
Import Text.

Definition SUM (l : list Z) : Z := foldr Z.add 0 l.

Definition digit (n : Z) : string :=
  String (ascii_of_N (48 + Z.to_N (n mod 10))) EmptyString.

Definition number_f2 (x : Z) : string :=
  ((if Z.ltb x 0 then "-" else "") ++ to_string (Z.abs x / 100) ++ "." ++
   digit (Z.abs x / 10) ++ digit (Z.abs x))%string.

Definition today : string := "January 1, 2025".

Fixpoint has_marker (d : ascii) (s : string) : bool :=
  match s with
  | EmptyString => false
  | String c r =>
      ((Ascii.eqb c "%" &&
        match r with String c2 _ => Ascii.eqb c2 d | EmptyString => false end)
       || has_marker d r)%bool
  end.

Fixpoint fill_marker (d : ascii) (a s : string) : string :=
  match s with
  | EmptyString => EmptyString
  | String c r =>
      if Ascii.eqb c "%" then
        match r with
        | String c2 r2 =>
            if Ascii.eqb c2 d then (a ++ fill_marker d a r2)%string
            else String c (fill_marker d a r)
        | EmptyString => s
        end
      else String c (fill_marker d a r)
  end.

Definition arg (s a : string) : string :=
  match filter (fun d => has_marker d s = true)
               ["1"; "2"; "3"; "4"; "5"; "6"; "7"; "8"; "9"]%char with
  | d :: _ => fill_marker d a s
  | [] => s
  end.

(** The e-mail expression of [DonorDialog::validateInputs] on 7-bit text:
    a word boundary, one or more of [A-Za-z0-9._%+-], an [@], one or more
    of [A-Za-z0-9.-], a dot, two to four letters and a word boundary,
    somewhere in the text.  A word character is a letter, a digit or
    [_]. *)
Definition is_alpha (c : ascii) : bool :=
  let n := N_of_ascii c in
  ((N.leb 65 n && N.leb n 90) || (N.leb 97 n && N.leb n 122))%bool.

Definition is_digit (c : ascii) : bool :=
  let n := N_of_ascii c in (N.leb 48 n && N.leb n 57)%bool.

Definition is_word (c : ascii) : bool :=
  (is_alpha c || is_digit c || Ascii.eqb c "_")%bool.

Definition word_next (s : string) : bool :=
  match s with String c _ => is_word c | EmptyString => false end.

Definition local_char (c : ascii) : bool :=
  (is_alpha c || is_digit c || Ascii.eqb c "." || Ascii.eqb c "_" ||
   Ascii.eqb c "%" || Ascii.eqb c "+" || Ascii.eqb c "-")%bool.

Definition domain_char (c : ascii) : bool :=
  (is_alpha c || is_digit c || Ascii.eqb c "." || Ascii.eqb c "-")%bool.

(** [[A-Z]{2,4}\b] at the head of [s]. *)
Definition top_level (s : string) : bool :=
  match s with
  | String a (String b r) =>
      (is_alpha a && is_alpha b &&
       (negb (word_next r) ||
        match r with
        | String c r' =>
            is_alpha c &&
            (negb (word_next r') ||
             match r' with
             | String e r'' => is_alpha e && negb (word_next r'')
             | EmptyString => false
             end)
        | EmptyString => false
        end))%bool
  | _ => false
  end.

(** [[A-Z0-9.-]+\.[A-Z]{2,4}\b] at the head of [s]. *)
Fixpoint domain_part (s : string) : bool :=
  match s with
  | String c r =>
      (domain_char c &&
       (match r with
        | String c' r' => Ascii.eqb c' "." && top_level r'
        | EmptyString => false
        end || domain_part r))%bool
  | EmptyString => false
  end.

(** [[A-Z0-9._%+-]+@] and the rest at the head of [s]. *)
Fixpoint local_part (s : string) : bool :=
  match s with
  | String c r =>
      (local_char c &&
       (match r with
        | String c' r' => Ascii.eqb c' "@" && domain_part r'
        | EmptyString => false
        end || local_part r))%bool
  | EmptyString => false
  end.

(** A match starting at the head of [s] or later; [before] tells whether
    the character before [s] is a word character. *)
Fixpoint match_from (before : bool) (s : string) : bool :=
  (xorb before (word_next s) && local_part s ||
   match s with
   | String c r => match_from (is_word c) r
   | EmptyString => false
   end)%bool.

Definition emailRegex (s : string) : bool := match_from false s.

Definition ann : Donor :=
  mkDonor "Ann" "Lee" "1 Main St" "Springfield" "IL" "62701" "USA"
          "555-0100" "ann@example.org".

Definition bob : Donor :=
  mkDonor "Bob" "Ray" "2 Oak Ave" "Salem" "OR" "97301" "USA"
          "555-0101" "bob@example.org".

(** One donor (id 1) with one donation (id 1) of 10.00. *)
Definition db1 : Db Z :=
  (DonationTracker.addDonation true
     (DonationTracker.addDonor true createTables ann).2
     1 1000 "2024-03-05" "cash").2.

(** Donor 1 with 10.00 and 25.50 in 2024 and 7.00 in 2023; donor 2 with
    nothing. *)
Definition db2 : Db Z :=
  let db := (DonationTracker.addDonor true db1 bob).2 in
  let db := (DonationTracker.addDonation true db 1 2550 "2024-11-30" "check").2 in
  (DonationTracker.addDonation true db 1 700 "2023-12-31" "cash").2.

Definition letters (io : bool) (can_open : string -> bool) (db : Db Z)
    (fs : Files) (year : Z) : DonationTracker.LetterRun :=
  DonationTracker.generateDonationLetters SUM number_f2 today arg
    io can_open db fs year.

(** The window on [db2], on the first of its two donors. *)
Definition window2 : MainWindow.MainWindow Z :=
  MainWindow.mkWindow db2 [1; 2] 0 1.

(** The window on the second donor of [db2], just after the tracker has
    deleted that donor and before the sequence is reloaded. *)
Definition stale_window : MainWindow.MainWindow Z :=
  MainWindow.mkWindow (DonationTracker.deleteDonor true db2 2).2 [1; 2] 1 2.

(** The window of a first session after two donors have been added. *)
Definition window_ab : MainWindow.MainWindow Z :=
  MainWindow.addDonor emailRegex true
    (MainWindow.addDonor emailRegex true (MainWindow.new true createTables) ann)
    bob.

End Cents.


(** * Properties *)

(** ** Table scans and row ids *)

Section ScanFacts.
Import Sqlite.
Context {A : Type}.

Global Instance key_le_trans : Transitive (@key_le A).
Proof. intros x y z; unfold key_le; lia. Qed.

Global Instance key_le_total : Total (@key_le A).
Proof. intros x y; unfold key_le; lia. Qed.

Lemma scan_perm (t : gmap Z A) : scan t ≡ₚ map_to_list t.
Proof. apply merge_sort_Permutation. Qed.

Lemma elem_of_scan (t : gmap Z A) k v : (k, v) ∈ scan t <-> t !! k = Some v.
Proof. rewrite scan_perm. apply elem_of_map_to_list. Qed.

Lemma NoDup_scan_keys (t : gmap Z A) : NoDup (scan t).*1.
Proof. rewrite scan_perm. apply NoDup_fst_map_to_list. Qed.

Lemma scan_sorted_le (t : gmap Z A) : StronglySorted key_le (scan t).
Proof. apply StronglySorted_merge_sort; apply _. Qed.

Lemma sorted_keys_lt (l : list (Z * A)) :
  StronglySorted key_le l -> NoDup l.*1 ->
  StronglySorted (fun a b => a.1 < b.1) l.
Proof.
  induction 1 as [|x l Hs IH Hall]; intros Hnd; [constructor|].
  rewrite fmap_cons in Hnd. apply NoDup_cons in Hnd as [Hx Hnd].
  constructor; [auto|].
  rewrite Forall_forall in Hall |- *. intros y Hy.
  specialize (Hall y Hy). unfold key_le in Hall.
  assert (x.1 <> y.1); [|lia].
  intros Heq. apply Hx. rewrite Heq. apply list_elem_of_fmap. eauto.
Qed.

Lemma scan_sorted (t : gmap Z A) :
  StronglySorted (fun a b : Z * A => a.1 < b.1) (scan t).
Proof. apply sorted_keys_lt; [apply scan_sorted_le | apply NoDup_scan_keys]. Qed.

Lemma max_rowid_ge (t : gmap Z A) k v : t !! k = Some v -> k <= max_rowid t.
Proof.
  intros H. apply elem_of_map_to_list in H.
  unfold max_rowid. induction (map_to_list t) as [|x l IH]; [inversion H|].
  rewrite fmap_cons. cbn [foldr].
  apply elem_of_cons in H as [<- | H]; [cbn; lia|]. specialize (IH H). lia.
Qed.

Lemma next_rowid_fresh (seq : Z) (t : gmap Z A) : t !! next_rowid seq t = None.
Proof.
  destruct (t !! next_rowid seq t) eqn:E; [|done].
  apply max_rowid_ge in E. unfold next_rowid in E. lia.
Qed.
End ScanFacts.

(** ** Writes to the donor and donation tables *)

Section WriteFacts.
Import Text Sqlite DonationTracker.
Context {real : Type}.
Implicit Types (db : Db real) (d : Donor).

Lemma db_eta db :
  mkDb (donors db) (donors_seq db) (donations db) (donations_seq db)
       (organization db) = db.
Proof. by destruct db. Qed.

Lemma c_str_id (s : string) :
  all_chars (fun c => negb (Ascii.eqb c "000")) s = true -> c_str s = s.
Proof.
  induction s as [|c s IH]; [done|]. simpl.
  destruct (Ascii.eqb c "000"); [done|]. simpl. intros H. by rewrite IH.
Qed.

(** No statement of [deleteDonor] touches the donations table. *)
Lemma deleteDonor_donations io db id :
  donations (deleteDonor io db id).2 = donations db.
Proof. unfold deleteDonor, foreign_keys. by destruct io. Qed.

Lemma deleteDonor_donors db id :
  donors (deleteDonor true db id).2 = delete id (donors db).
Proof. done. Qed.

(** C2 (as the code has it).  For an id that no donor has, [updateDonor] and
    [deleteDonor] change nothing and return what the storage layer returns:
    [true] when the statement runs, [false] on a storage failure.  There is
    no separate not-found outcome. *)
Theorem update_delete_absent_id io db id d :
  donors db !! id = None ->
  updateDonor io db id d = (io, db) /\ deleteDonor io db id = (io, db).
Proof.
  intros Hid. unfold updateDonor, deleteDonor, foreign_keys.
  destruct io; [|done]. rewrite Hid, delete_id by done.
  by rewrite db_eta.
Qed.

(** C9.  [addDonation] looks at no donor: whenever the statement runs it
    returns [true] and adds one row under a fresh id, holding [donorId] and
    the amount as passed and the date and payment method as the C strings
    passed (all of the text when it has no NUL byte); every other row and
    table is as before.  On a storage failure it returns [false] and changes
    nothing. *)
Theorem addDonation_no_donor_check io db donorId (amt : real) dt pm :
  let r := addDonation io db donorId amt dt pm in
  let id := next_rowid (donations_seq db) (donations db) in
  r.1 = io /\
  (io = false -> r.2 = db) /\
  (io = true ->
     donations db !! id = None /\
     donations r.2 = <[id := mkDonation donorId amt (c_str dt) (c_str pm)]>
                       (donations db) /\
     donors r.2 = donors db /\ organization r.2 = organization db) /\
  (all_chars (fun c => negb (Ascii.eqb c "000")) dt = true -> c_str dt = dt).
Proof.
  unfold addDonation, foreign_keys. cbn zeta.
  destruct io; cbn; repeat split; try done.
  - apply next_rowid_fresh.
  - apply c_str_id.
  - apply c_str_id.
Qed.

End WriteFacts.

(** C1 (the code at a failing input).  Donor 1 owns donation 1.  After
    [deleteDonor(1)] returns [true] the donor is gone, and donation 1 is
    still stored with [donor_id = 1]: [getDonationsForDonor(1)] lists it. *)
Theorem deleteDonor_keeps_donations :
  let r := DonationTracker.deleteDonor true Cents.db1 1 in
  donors Cents.db1 !! 1 = Some Cents.ann /\
  r.1 = true /\
  donors r.2 !! 1 = None /\
  donations r.2 !! 1 = Some (mkDonation 1 1000 "2024-03-05" "cash") /\
  DonationTracker.getDonationsForDonor Cents.number_f2 true r.2 1 [] =
    [["1"; "1"; "10.00"; "2024-03-05"; "cash"]].
Proof. vm_compute. repeat split. Qed.

(** C2 (the claim fails).  No donor has id 7 in the empty store, and both
    [updateDonor(7, ...)] and [deleteDonor(7)] return [true]. *)
Lemma update_delete_absent_id_succeed :
  donors (@createTables Z) !! 7 = None /\
  (DonationTracker.updateDonor true (@createTables Z) 7 Cents.ann).1 = true /\
  (DonationTracker.deleteDonor true (@createTables Z) 7).1 = true.
Proof. vm_compute. repeat split. Qed.

Lemma update_delete_absent_id_witness :
  donors Cents.db1 !! 7 = None /\
  DonationTracker.updateDonor true Cents.db1 7 Cents.bob = (true, Cents.db1) /\
  DonationTracker.deleteDonor true Cents.db1 7 = (true, Cents.db1).
Proof.
  split; [reflexivity|].
  apply (update_delete_absent_id true Cents.db1 7 Cents.bob). reflexivity.
Defined.

(** ** Lists *)

Section ListFacts.
Context {A : Type}.

Lemma filter_none (P : A -> Prop) `{!forall x, Decision (P x)} (l : list A) :
  (forall x, x ∈ l -> ~ P x) -> filter P l = [].
Proof.
  induction l as [|x l IH]; intros Hn; [done|].
  rewrite filter_cons_False by (apply Hn; left).
  apply IH. intros y Hy. apply Hn. by right.
Qed.

End ListFacts.

(** ** The loop of [generateDonationLetters] *)

Section LetterLoop.
Import Text Sqlite DonationTracker.
Context {real : Type}.
Variable SUM : list real -> real.
Variable number_f2 : real -> string.
Variable today : string.
Variable arg : string -> string -> string.
Variable can_open : string -> bool.
Variables (orgName orgAddress : string) (year : Z).

Abbreviation path row := (fileName arg (first_name row.1) (last_name row.1) year).
Abbreviation text row :=
  (letter_text number_f2 today orgName orgAddress year row.1 row.2).
Abbreviation step :=
  (letter_step number_f2 today arg can_open orgName orgAddress year).

Lemma foldl_step_snoc (st : LetterRun) rows (r : Donor * real) :
  foldl step st (rows ++ [r]) = step (foldl step st rows) r.
Proof. by rewrite foldl_app. Qed.

Lemma loop_attempted (st : LetterRun) (rows : list (Donor * real)) :
  attempted (foldl step st rows) = attempted st ++ map (fun r => path r) rows.
Proof.
  revert st. induction rows as [|r rows IH]; intros st; simpl.
  - by rewrite app_nil_r.
  - rewrite IH. unfold letter_step.
    destruct (can_open _); simpl; by rewrite <- app_assoc.
Qed.

Lemma loop_success (st : LetterRun) (rows : list (Donor * real)) :
  success (foldl step st rows) =
  (success st && forallb (fun r => can_open (path r)) rows)%bool.
Proof.
  revert st. induction rows as [|r rows IH]; intros st; simpl.
  - by rewrite andb_true_r.
  - rewrite IH. unfold letter_step.
    destruct (can_open _); simpl; [done|]. by rewrite andb_false_r.
Qed.

(** The file at [p] after the loop is the letter of the last row that
    opened [p]; a path no row opened is as before. *)
Lemma loop_files (st : LetterRun) (rows : list (Donor * real)) (p : string) :
  files (foldl step st rows) !! p =
  match last (filter (fun r => path r = p /\ can_open p = true) rows) with
  | Some r => Some (text r)
  | None => files st !! p
  end.
Proof.
  induction rows as [|r rows IH] using rev_ind; [done|].
  rewrite foldl_step_snoc, filter_app, filter_cons, filter_nil.
  unfold letter_step at 1.
  destruct (decide (path r = p /\ can_open p = true)) as [[Hp Ho]|Hn].
  - rewrite last_snoc, Hp, Ho. cbn. by rewrite lookup_insert_eq.
  - rewrite app_nil_r, <- IH.
    destruct (can_open (path r)) eqn:Ho; cbn; [|done].
    rewrite lookup_insert_ne; [done|]. intros Hp. apply Hn. by rewrite <- Hp.
Qed.

End LetterLoop.

Section LetterRun.
Import Text Sqlite DonationTracker.
Context {real : Type}.
Variable SUM : list real -> real.
Variable number_f2 : real -> string.
Variable today : string.
Variable arg : string -> string -> string.

Abbreviation org db := (default (EmptyString, EmptyString) (organization db)).
Abbreviation path_of year row :=
  (fileName arg (first_name row.1) (last_name row.1) year).
Abbreviation text_of db year row :=
  (letter_text number_f2 today (org db).1 (org db).2 year row.1 row.2).
Abbreviation letters :=
  (generateDonationLetters SUM number_f2 today arg).

Lemma letters_unfold can_open (db : Db real) fs year :
  letters true can_open db fs year =
  foldl (letter_step number_f2 today arg can_open (org db).1 (org db).2 year)
        (mkRun true fs []) (letter_rows SUM db year).
Proof. done. Qed.

(** C7.  When the query runs, [generateDonationLetters] opens the file of
    every result row, in order, whether or not an earlier one failed to
    open; it returns [true] exactly when every one of them opened; and each
    path that opens holds, afterwards, the letter of a row with that path.
    When the query cannot be prepared it returns [false]. *)
Theorem letters_continue_after_failure can_open (db : Db real) fs year :
  let rows := letter_rows SUM db year in
  let run := letters true can_open db fs year in
  attempted run = map (fun r => path_of year r) rows /\
  (success run = true <->
     forall r, r ∈ rows -> can_open (path_of year r) = true) /\
  (forall r, r ∈ rows -> can_open (path_of year r) = true ->
     exists r', r' ∈ rows /\ path_of year r' = path_of year r /\
                files run !! path_of year r = Some (text_of db year r')) /\
  success (letters false can_open db fs year) = false.
Proof.
  cbn zeta. rewrite letters_unfold. split; [|split; [|split]].
  - by rewrite loop_attempted.
  - rewrite loop_success. cbn. rewrite forallb_forall.
    split; intros H r Hr; apply H; by apply list_elem_of_In.
  - intros r Hr Ho. rewrite loop_files.
    destruct (last _) as [r'|] eqn:El.
    + apply last_Some_elem_of, list_elem_of_filter in El as [[Hp _] Hr'].
      by exists r'.
    + apply last_None in El.
      assert (r ∈ filter (fun r0 => path_of year r0 = path_of year r /\
                                    can_open (path_of year r) = true)
                         (letter_rows SUM db year)) as Hin
        by (by apply list_elem_of_filter).
      rewrite El in Hin. by apply elem_of_nil in Hin.
  - done.
Qed.

(** C10.  The file name is computed from the first name, the last name and
    the year alone.  So when two rows of one run carry the same first and
    last name, both are written to one path, and once the run is over that
    path holds the letter of the later row (here [r2], no row after it
    having that path): the earlier letter has been overwritten. *)
Theorem letters_same_name_overwrite can_open (db : Db real) fs year
    pre r1 mid r2 post :
  letter_rows SUM db year = pre ++ r1 :: mid ++ r2 :: post ->
  first_name r1.1 = first_name r2.1 ->
  last_name r1.1 = last_name r2.1 ->
  (forall r, r ∈ post -> path_of year r <> path_of year r2) ->
  can_open (path_of year r2) = true ->
  let run := letters true can_open db fs year in
  path_of year r1 = path_of year r2 /\
  attempted run =
    map (fun r => path_of year r) pre ++ path_of year r1 ::
    map (fun r => path_of year r) mid ++ path_of year r2 ::
    map (fun r => path_of year r) post /\
  files run !! path_of year r1 = Some (text_of db year r2).
Proof.
  intros Hrows Hf Hl Hpost Ho. cbn zeta.
  assert (path_of year r1 = path_of year r2) as Hp by (by rewrite Hf, Hl).
  split; [done|]. rewrite letters_unfold. split.
  - rewrite loop_attempted, Hrows. cbn.
    by rewrite map_app, map_cons, map_app, map_cons.
  - rewrite loop_files, Hrows, Hp.
    replace (pre ++ r1 :: mid ++ r2 :: post)
      with (((pre ++ r1 :: mid) ++ [r2]) ++ post)
      by (by rewrite <- !app_assoc).
    rewrite (filter_app _ _ post).
    assert (filter (fun r => path_of year r = path_of year r2 /\
                             can_open (path_of year r2) = true) post = [])
      as ->.
    { apply filter_none. intros r Hr [Hq _]. by apply (Hpost r). }
    rewrite app_nil_r, filter_app.
    rewrite (filter_cons_True _ r2 []), filter_nil by done.
    by rewrite last_snoc.
Qed.

End LetterRun.

(** Two donors called Ann Lee, each with a gift in 2024. *)
Lemma letters_same_name_overwrite_witness :
  let db :=
    (DonationTracker.addDonation true
       (DonationTracker.addDonor true Cents.db1
          (mkDonor "Ann" "Lee" "9 Elm Rd" "Dover" "DE" "19901" "USA"
                   "555-0199" "lee@example.org")).2
       2 500 "2024-07-01" "card").2 in
  let p := "letters/Ann_Lee_2024_donation_letter.txt"%string in
  let run := Cents.letters true (fun _ => true) db ∅ 2024 in
  DonationTracker.attempted run = [p; p] /\
  size (DonationTracker.files run) = 1%nat /\
  exists s, DonationTracker.files run !! p = Some s /\
            Text.occurs_inb "9 Elm Rd" s = true /\
            Text.occurs_inb "1 Main St" s = false.
Proof.
  cbn zeta.
  pose proof (letters_same_name_overwrite Cents.SUM Cents.number_f2 Cents.today
                Cents.arg (fun _ => true)
                (DonationTracker.addDonation true
                   (DonationTracker.addDonor true Cents.db1
                      (mkDonor "Ann" "Lee" "9 Elm Rd" "Dover" "DE" "19901" "USA"
                               "555-0199" "lee@example.org")).2
                   2 500 "2024-07-01" "card").2
                ∅ 2024 [] (Cents.ann, 1000) []
                (mkDonor "Ann" "Lee" "9 Elm Rd" "Dover" "DE" "19901" "USA"
                         "555-0199" "lee@example.org", 500) []
                ltac:(vm_compute; reflexivity) eq_refl eq_refl
                ltac:(intros r Hr; by apply elem_of_nil in Hr)
                eq_refl) as (_ & Ha & Hf).
  split; [exact Ha|]. split; [vm_compute; reflexivity|].
  eexists. split; [exact Hf|]. split; vm_compute; reflexivity.
Defined.

(** ** The order of [ORDER BY first_name, last_name] *)

Section NameOrder.

Lemma ascii_compare_N (a b : ascii) :
  Ascii.compare a b = N.compare (N_of_ascii a) (N_of_ascii b).
Proof. done. Qed.

Lemma ascii_compare_lt_trans (a b c : ascii) :
  Ascii.compare a b = Lt -> Ascii.compare b c = Lt -> Ascii.compare a c = Lt.
Proof.
  rewrite !ascii_compare_N, !N.compare_lt_iff. apply N.lt_trans.
Qed.

Lemma string_compare_lt_trans (a b c : string) :
  String.compare a b = Lt -> String.compare b c = Lt -> String.compare a c = Lt.
Proof.
  revert b c. induction a as [|x a IH]; intros [|y b] [|z c]; simpl; try done.
  destruct (Ascii.compare x y) eqn:Exy; try done.
  - apply Ascii.compare_eq_iff in Exy as ->.
    destruct (Ascii.compare y z); try done. apply IH.
  - destruct (Ascii.compare y z) eqn:Eyz; try done.
    + apply Ascii.compare_eq_iff in Eyz as <-. by rewrite Exy.
    + by rewrite (ascii_compare_lt_trans x y z).
Qed.

Lemma string_compare_refl (a : string) : String.compare a a = Eq.
Proof.
  destruct (String.compare a a) eqn:E; [done| |];
    pose proof (String.compare_antisym a a) as H; rewrite E in H; done.
Qed.

Lemma string_leb_trans (a b c : string) :
  String.leb a b = true -> String.leb b c = true -> String.leb a c = true.
Proof.
  unfold String.leb.
  destruct (String.compare a b) eqn:Eab; try done;
    destruct (String.compare b c) eqn:Ebc; try done; intros _ _.
  - apply String.compare_eq_iff in Eab as ->. by rewrite Ebc.
  - apply String.compare_eq_iff in Eab as ->. by rewrite Ebc.
  - apply String.compare_eq_iff in Ebc as <-. by rewrite Eab.
  - by rewrite (string_compare_lt_trans a b c).
Qed.

Global Instance name_le_trans : Transitive name_le.
Proof.
  intros x y z. unfold name_le.
  destruct (String.compare (first_name x.2) (first_name y.2)) eqn:Exy; try done;
    destruct (String.compare (first_name y.2) (first_name z.2)) eqn:Eyz; try done.
  - apply String.compare_eq_iff in Exy. rewrite Exy, Eyz. apply string_leb_trans.
  - apply String.compare_eq_iff in Exy. by rewrite Exy, Eyz.
  - apply String.compare_eq_iff in Eyz. by rewrite <- Eyz, Exy.
  - by rewrite (string_compare_lt_trans _ _ _ Exy Eyz).
Qed.

Global Instance name_le_total : Total name_le.
Proof.
  intros x y. unfold name_le.
  rewrite (String.compare_antisym (first_name x.2) (first_name y.2)).
  destruct (String.compare (first_name y.2) (first_name x.2)); simpl; auto.
  apply String.leb_total.
Qed.

End NameOrder.

(** ** [searchDonors] without a filter *)

Section SearchAll.
Import Text Sqlite DonationTracker.
Context {real : Type}.

(** C8.  With [includeAll] set, or with an empty term, the table is filled
    with one row for every donor of the store and for nothing else, and the
    rows ascend by first name and, for equal first names, by last name. *)
Theorem searchDonors_all_sorted (db : Db real) term table includeAll :
  (includeAll || is_empty term)%bool = true ->
  exists rows : list (Z * Donor),
    searchDonors true db term table includeAll = map donor_cells rows /\
    rows ≡ₚ map_to_list (donors db) /\
    (forall id d, (id, d) ∈ rows <-> donors db !! id = Some d) /\
    StronglySorted name_le rows.
Proof.
  intros Hall. exists (merge_sort name_le (scan (donors db))).
  unfold searchDonors, search_rows. rewrite Hall.
  split; [done|]. split; [|split].
  - by rewrite merge_sort_Permutation, scan_perm.
  - intros id d. rewrite merge_sort_Permutation. apply elem_of_scan.
  - apply StronglySorted_merge_sort; apply _.
Qed.

End SearchAll.

Lemma searchDonors_all_sorted_witness :
  exists rows : list (Z * Donor),
    DonationTracker.searchDonors true Cents.db2 "" [] true =
      map DonationTracker.donor_cells rows /\
    rows ≡ₚ map_to_list (donors Cents.db2) /\
    (forall id d, (id, d) ∈ rows <-> donors Cents.db2 !! id = Some d) /\
    StronglySorted name_le rows.
Proof. apply (searchDonors_all_sorted Cents.db2 "" [] true). reflexivity. Defined.

(** ** The navigation cursor *)

Section CursorFacts.
Import Text Sqlite DonationTracker MainWindow.
Context {real : Type}.
Implicit Types (w : MainWindow real) (db : Db real).

Lemma sorted_le_NoDup_lt (l : list Z) :
  StronglySorted Z.le l -> NoDup l -> StronglySorted Z.lt l.
Proof.
  induction 1 as [|x l Hs IH Hall]; intros Hnd; [constructor|].
  apply NoDup_cons in Hnd as [Hx Hnd]. constructor; [auto|].
  rewrite Forall_forall in Hall |- *. intros y Hy.
  specialize (Hall y Hy). assert (x <> y) by (by intros ->). lia.
Qed.

Lemma elem_of_getAllDonorIds db id :
  id ∈ getAllDonorIds true db <-> is_Some (donors db !! id).
Proof.
  unfold getAllDonorIds. rewrite merge_sort_Permutation, list_elem_of_fmap.
  split.
  - intros [[k d] [-> H]]. apply elem_of_scan in H. by exists d.
  - intros [d H]. exists (id, d). split; [done|]. by apply elem_of_scan.
Qed.

Lemma NoDup_getAllDonorIds db : NoDup (getAllDonorIds true db).
Proof.
  unfold getAllDonorIds. rewrite merge_sort_Permutation. apply NoDup_scan_keys.
Qed.

Lemma getAllDonorIds_sorted db : StronglySorted Z.lt (getAllDonorIds true db).
Proof.
  apply sorted_le_NoDup_lt; [|apply NoDup_getAllDonorIds].
  unfold getAllDonorIds. apply StronglySorted_merge_sort; apply _.
Qed.

Lemma find_distance_Some x v i :
  find_distance x v = Some i ->
  0 <= i < Z.of_nat (length v) /\ v !! Z.to_nat i = Some x.
Proof.
  revert i. induction v as [|y v IH]; intros i; cbn [find_distance]; [done|].
  rewrite length_cons.
  destruct (Z.eqb_spec y x) as [->|Hne].
  - intros [= <-]. split; [lia|done].
  - destruct (find_distance x v) as [j|]; [|done]. intros [= <-].
    destruct (IH j eq_refl) as [Hj Hl]. split; [lia|].
    replace (Z.to_nat (Z.succ j)) with (S (Z.to_nat j)) by lia. done.
Qed.

Lemma find_distance_None x v : find_distance x v = None -> x ∉ v.
Proof.
  induction v as [|y v IH]; simpl; [intros _; apply not_elem_of_nil|].
  destruct (Z.eqb_spec y x) as [->|Hne]; [done|].
  destruct (find_distance x v); [done|]. intros _.
  apply not_elem_of_cons. split; [congruence|]. by apply IH.
Qed.

Lemma at_index_Some v i x :
  at_index v i = Some x <-> 0 <= i /\ v !! Z.to_nat i = Some x.
Proof.
  unfold at_index. destruct (Z.ltb_spec i 0) as [Hlt|Hge].
  - split; [done | intros [? _]; lia].
  - split; [intros ?; split; [lia|done] | intros [_ ?]; done].
Qed.

(** C5.  [populateDonorIds] replaces the sequence by the ids of the donors
    now in the store, in ascending order, and keeps the store and the
    current donor id.  When that id is in the new sequence the index becomes
    its position; otherwise the index is [-1], the cursor on nothing.  (With
    no donor loaded, [currentDonorId = -1], the index is already [-1].) *)
Theorem populateDonorIds_refresh w :
  (currentDonorId w = -1 -> currentDonorIndex w = -1) ->
  let w' := populateDonorIds true w in
  tracker w' = tracker w /\
  currentDonorId w' = currentDonorId w /\
  StronglySorted Z.lt (donorIds w') /\
  (forall id, id ∈ donorIds w' <-> is_Some (donors (tracker w) !! id)) /\
  ((currentDonorId w <> -1 /\
    at_index (donorIds w') (currentDonorIndex w') = Some (currentDonorId w))
   \/
   (currentDonorIndex w' = -1 /\
    (currentDonorId w = -1 \/ currentDonorId w ∉ donorIds w'))).
Proof.
  intros Hnone. cbn zeta. unfold populateDonorIds. cbn.
  split; [done|]. split; [done|].
  split; [apply getAllDonorIds_sorted|].
  split; [apply elem_of_getAllDonorIds|].
  destruct (Z.eqb_spec (currentDonorId w) (-1)) as [He|Hne].
  - right. auto.
  - destruct (find_distance _ _) as [i|] eqn:Ef.
    + left. split; [done|]. apply find_distance_Some in Ef as [Hi Hl].
      apply at_index_Some. split; [lia|done].
    + right. split; [done|]. right. by apply find_distance_None.
Qed.

Lemma size_t_small (x : Z) : 0 <= x < 2 ^ 64 -> size_t x = x.
Proof. intros H. unfold size_t. by apply Z.mod_small. Qed.

(** The condition of [loadNextDonor] on a cursor that is on nothing or on a
    position, for a vector of fewer than 2^63 elements. *)
Lemma next_condition w :
  cursor_ok w ->
  Z.ltb (size_t (currentDonorIndex w))
        (size_t (Z.of_nat (length (donorIds w)) - 1)) =
  Z.ltb (currentDonorIndex w) (Z.of_nat (length (donorIds w)) - 1).
Proof.
  intros [Hbig [[Hnil Hidx]|[H0 Hlen]]].
  - rewrite Hnil, Hidx. done.
  - rewrite !size_t_small by lia. done.
Qed.

Lemma at_index_in_range (v : list Z) i :
  0 <= i < Z.of_nat (length v) -> exists x, at_index v i = Some x.
Proof.
  intros Hi. destruct (lookup_lt_is_Some_2 v (Z.to_nat i)) as [x Hx]; [lia|].
  exists x. apply at_index_Some. split; [lia|done].
Qed.

(** C6.  On a cursor as it stands between two events, [loadPreviousDonor]
    changes nothing unless the index is above 0, and then the index goes
    down by exactly one; [loadNextDonor] changes nothing unless the index is
    below [length - 1], and then the index goes up by exactly one.  A step
    keeps the sequence and the store and loads the donor at the new index.
    In particular nothing changes at index 0 for the former and at the last
    index for the latter. *)
Theorem previous_next_step_or_noop io w :
  cursor_ok w ->
  let i := currentDonorIndex w in
  let n := Z.of_nat (length (donorIds w)) in
  (0 < i ->
     exists id w', at_index (donorIds w) (i - 1) = Some id /\
       loadPreviousDonor io w = Some w' /\
       w' = loadDonor io (set_index w (i - 1)) id /\
       currentDonorIndex w' = i - 1 /\
       donorIds w' = donorIds w /\ tracker w' = tracker w) /\
  (~ 0 < i -> loadPreviousDonor io w = Some w) /\
  (i < n - 1 ->
     exists id w', at_index (donorIds w) (i + 1) = Some id /\
       loadNextDonor io w = Some w' /\
       w' = loadDonor io (set_index w (i + 1)) id /\
       currentDonorIndex w' = i + 1 /\
       donorIds w' = donorIds w /\ tracker w' = tracker w) /\
  (~ i < n - 1 -> loadNextDonor io w = Some w) /\
  (i = 0 -> loadPreviousDonor io w = Some w) /\
  (i = n - 1 -> loadNextDonor io w = Some w).
Proof.
  intros Hok. pose proof (next_condition w Hok) as Hnext.
  destruct Hok as [Hbig Hok]. cbn zeta.
  assert (~ 0 < currentDonorIndex w -> loadPreviousDonor io w = Some w) as Hp.
  { intros Hi. unfold loadPreviousDonor.
    destruct (Z.ltb_spec 0 (currentDonorIndex w)); [lia|done]. }
  assert (~ currentDonorIndex w < Z.of_nat (length (donorIds w)) - 1 ->
          loadNextDonor io w = Some w) as Hn.
  { intros Hi. unfold loadNextDonor. rewrite Hnext.
    destruct (Z.ltb_spec (currentDonorIndex w)
                (Z.of_nat (length (donorIds w)) - 1)); [lia|done]. }
  split; [|split; [exact Hp|split; [|split; [exact Hn|split]]]].
  - intros Hi.
    destruct (at_index_in_range (donorIds w) (currentDonorIndex w - 1))
      as [id Hid].
    { destruct Hok as [[_ ?]|[? ?]]; lia. }
    exists id, (loadDonor io (set_index w (currentDonorIndex w - 1)) id).
    split; [done|]. split; [|done].
    unfold loadPreviousDonor.
    destruct (Z.ltb_spec 0 (currentDonorIndex w)); [|lia].
    cbn. by rewrite Hid.
  - intros Hi.
    destruct (at_index_in_range (donorIds w) (currentDonorIndex w + 1))
      as [id Hid].
    { destruct Hok as [[Hnil ?]|[? ?]]; [|lia]. rewrite Hnil in Hi. cbn in Hi. lia. }
    exists id, (loadDonor io (set_index w (currentDonorIndex w + 1)) id).
    split; [done|]. split; [|done].
    unfold loadNextDonor. rewrite Hnext.
    destruct (Z.ltb_spec (currentDonorIndex w)
                (Z.of_nat (length (donorIds w)) - 1)); [|lia].
    cbn. by rewrite Hid.
  - intros Hi. apply Hp. lia.
  - intros Hi. apply Hn. lia.
Qed.

(** On a cursor that is on nothing, whatever the sequence, neither slot
    does anything. *)
Lemma previous_next_on_nothing io w :
  currentDonorIndex w = -1 ->
  loadPreviousDonor io w = Some w /\ loadNextDonor io w = Some w.
Proof.
  intros Hi. unfold loadPreviousDonor, loadNextDonor. rewrite Hi. split; [done|].
  destruct (Z.ltb_spec (size_t (-1))
              (size_t (Z.of_nat (length (donorIds w)) - 1))) as [Hlt|]; [|done].
  exfalso. change (size_t (-1)) with (2 ^ 64 - 1) in Hlt.
  unfold size_t in Hlt.
  pose proof (Z.mod_pos_bound (Z.of_nat (length (donorIds w)) - 1) (2 ^ 64)).
  lia.
Qed.

End CursorFacts.

(** ** The cursor over a session *)

Section Session.
Import Text Sqlite DonationTracker MainWindow.
Context {real : Type}.
Variable emailRegex : string -> bool.
Implicit Types (w : MainWindow real) (db : Db real).

Abbreviation keys_pos db := (forall k, is_Some (donors db !! k) -> 1 <= k).
Abbreviation none_ok w := (currentDonorId w = -1 -> currentDonorIndex w = -1).

Lemma getAllDonorIds_dom db1 db2 :
  (forall k, is_Some (donors db1 !! k) <-> is_Some (donors db2 !! k)) ->
  getAllDonorIds true db1 = getAllDonorIds true db2.
Proof.
  intros Hdom. apply (StronglySorted_unique Z.le).
  - unfold getAllDonorIds. apply StronglySorted_merge_sort; apply _.
  - unfold getAllDonorIds. apply StronglySorted_merge_sort; apply _.
  - apply NoDup_Permutation; try apply NoDup_getAllDonorIds.
    intros k. by rewrite !elem_of_getAllDonorIds.
Qed.

Lemma in_sync_none_ok w : in_sync w -> none_ok w.
Proof.
  intros (Hids & Hpos & [(_ & Hi & _)|Hat]) Hid; [done|].
  rewrite Hid in Hat. apply at_index_Some in Hat as [_ Hat].
  apply list_elem_of_lookup_2 in Hat. rewrite Hids in Hat.
  apply elem_of_getAllDonorIds, Hpos in Hat. lia.
Qed.

Lemma in_sync_cursor_ok w :
  in_sync w -> Z.of_nat (length (donorIds w)) < 2 ^ 63 -> cursor_ok w.
Proof.
  intros (_ & _ & [(Hnil & Hi & _)|Hat]) Hbig; (split; [done|]); [by left|].
  right. apply at_index_Some in Hat as [H0 Hat].
  apply lookup_lt_Some in Hat. unfold positioned. lia.
Qed.

Lemma sync_load w i id :
  donorIds w = getAllDonorIds true (tracker w) -> keys_pos (tracker w) ->
  at_index (donorIds w) i = Some id ->
  in_sync (loadDonor true (set_index w i) id).
Proof.
  intros Hids Hpos Hat. pose proof Hat as Hat'.
  apply at_index_Some in Hat' as [_ Hin].
  apply list_elem_of_lookup_2 in Hin. rewrite Hids in Hin.
  apply elem_of_getAllDonorIds in Hin. pose proof (Hpos id Hin) as Hge.
  unfold in_sync, loadDonor, getDonorDetails. cbn.
  destruct (Z.eqb_spec id (-1)); [lia|]. destruct Hin as [d ->].
  split; [done|]. split; [done|]. by right.
Qed.

Lemma populate_none_ok w : none_ok w -> none_ok (populateDonorIds true w).
Proof.
  intros Hn. unfold populateDonorIds. cbn. intros Hid.
  destruct (Z.eqb_spec (currentDonorId w) (-1)); [auto|done].
Qed.

Lemma populate_empty_index w :
  none_ok w -> donorIds (populateDonorIds true w) = [] ->
  currentDonorIndex (populateDonorIds true w) = -1.
Proof.
  intros Hn. unfold populateDonorIds. cbn. intros Hnil. rewrite Hnil.
  destruct (Z.eqb_spec (currentDonorId w) (-1)); [auto|done].
Qed.

Lemma populate_ids w :
  donorIds (populateDonorIds true w) =
  getAllDonorIds true (tracker (populateDonorIds true w)).
Proof. done. Qed.

Lemma sync_load_nothing w :
  donorIds w = getAllDonorIds true (tracker w) -> keys_pos (tracker w) ->
  donorIds w = [] -> currentDonorIndex w = -1 ->
  in_sync (loadDonor true w (-1)).
Proof.
  intros Hids Hpos Hnil Hi. unfold in_sync, loadDonor.
  cbn [tracker donorIds currentDonorIndex currentDonorId].
  split; [done|]. split; [done|]. by left.
Qed.

Lemma loadFirstDonor_in_sync w :
  none_ok w -> keys_pos (tracker w) -> in_sync (loadFirstDonor true w).
Proof.
  intros Hn Hpos. unfold loadFirstDonor.
  pose proof (populate_ids w) as Hids.
  pose proof (populate_empty_index w Hn) as Hi.
  assert (keys_pos (tracker (populateDonorIds true w))) as Hpos' by done.
  revert Hids Hi Hpos'. generalize (populateDonorIds true w). intros w1 Hids Hi Hpos'.
  destruct (donorIds w1) as [|id ids] eqn:E.
  - apply sync_load_nothing; auto. by rewrite E.
  - apply sync_load; [by rewrite <- Hids|done|].
    cbn [donorIds set_index]. by rewrite E.
Qed.

Lemma loadLastDonor_in_sync w :
  none_ok w -> keys_pos (tracker w) -> in_sync (loadLastDonor true w).
Proof.
  intros Hn Hpos. unfold loadLastDonor.
  pose proof (populate_ids w) as Hids.
  pose proof (populate_empty_index w Hn) as Hi.
  assert (keys_pos (tracker (populateDonorIds true w))) as Hpos' by done.
  revert Hids Hi Hpos'. generalize (populateDonorIds true w). intros w1 Hids Hi Hpos'.
  destruct (last (donorIds w1)) as [id|] eqn:E.
  - apply sync_load; [done|done|]. apply at_index_Some.
    rewrite last_lookup in E. pose proof (lookup_lt_Some _ _ _ E) as Hlt.
    cbn [donorIds set_index]. split; [lia|].
    rewrite <- E. f_equal. lia.
  - apply last_None in E. apply sync_load_nothing; auto.
Qed.

Lemma new_in_sync db : keys_pos db -> in_sync (new true db).
Proof.
  intros Hpos. unfold new. apply loadFirstDonor_in_sync; [|done].
  by apply populate_none_ok.
Qed.

Lemma addDonor_keys_pos db d :
  keys_pos db -> keys_pos (DonationTracker.addDonor true db d).2.
Proof.
  intros Hpos k. cbn. rewrite lookup_insert. case_decide as Hk; [|apply Hpos].
  intros _. subst k. unfold next_rowid, max_rowid.
  assert (0 <= foldr Z.max 0 (map_to_list (donors db)).*1); [|lia].
  induction ((map_to_list (donors db)).*1); cbn; lia.
Qed.

(** Every event leaves the window in sync with the store. *)
Lemma handle_in_sync w e w' :
  in_sync w -> handle emailRegex w e = Some w' -> in_sync w'.
Proof.
  intros Hs. pose proof (in_sync_none_ok w Hs) as Hn.
  destruct Hs as (Hids & Hpos & Hcur).
  destruct e as [io d|io d|io| | | | |id|]; cbn [handle].
  - intros [= <-]. unfold MainWindow.addDonor.
    destruct (DonorDialog.validateInputs emailRegex d); [|done].
    destruct io; [|done]. cbn [fst snd DonationTracker.addDonor].
    apply loadLastDonor_in_sync.
    + by apply populate_none_ok.
    + apply (addDonor_keys_pos (tracker w) d Hpos).
  - intros [= <-]. unfold MainWindow.editDonor.
    destruct (Z.eqb_spec (currentDonorId w) (-1)) as [|Hid]; [done|].
    destruct (getDonorDetails io (tracker w) (currentDonorId w)) as [d0|] eqn:Eg;
      [|done].
    destruct (DonorDialog.validateInputs emailRegex d); [|done].
    destruct io; [|done]. cbn in Eg. cbn [fst snd updateDonor].
    rewrite Eg.
    assert (forall k, is_Some (<[currentDonorId w := bind_donor d]>
                                 (donors (tracker w)) !! k) <->
                      is_Some (donors (tracker w) !! k)) as Hdom.
    { intros k. rewrite lookup_insert. case_decide as Hk; [|done].
      subst k. rewrite Eg. split; eauto. }
    unfold in_sync, loadDonor, set_tracker, getDonorDetails.
    cbn [tracker donorIds currentDonorIndex currentDonorId donors].
    rewrite lookup_insert_eq.
    destruct (Z.eqb_spec (currentDonorId w) (-1)); [done|].
    split; [|split].
    + rewrite Hids. apply getAllDonorIds_dom. intros k.
      cbn [donors]. by rewrite Hdom.
    + intros k Hk. apply Hpos. by apply Hdom.
    + done.
  - intros [= <-]. unfold MainWindow.deleteDonor.
    destruct (Z.eqb_spec (currentDonorId w) (-1)) as [|Hid]; [done|].
    destruct io; [|done]. cbn [fst snd DonationTracker.deleteDonor].
    apply loadFirstDonor_in_sync.
    + by apply populate_none_ok.
    + cbn. intros k Hk. apply Hpos.
      destruct Hk as [x Hk]. apply lookup_delete_Some in Hk as [_ Hk]. eauto.
  - intros [= <-]. by apply loadFirstDonor_in_sync.
  - unfold loadPreviousDonor. destruct (Z.ltb 0 (currentDonorIndex w)).
    + cbn [donorIds currentDonorIndex set_index].
      destruct (at_index (donorIds w) (currentDonorIndex w - 1))
        as [id|] eqn:Eat; cbn [option_map]; [|by intros [=]].
      intros [= <-]. by apply sync_load.
    + by intros [= <-].
  - unfold loadNextDonor. destruct (Z.ltb _ _).
    + cbn [donorIds currentDonorIndex set_index].
      destruct (at_index (donorIds w) (currentDonorIndex w + 1))
        as [id|] eqn:Eat; cbn [option_map]; [|by intros [=]].
      intros [= <-]. by apply sync_load.
    + by intros [= <-].
  - intros [= <-]. by apply loadLastDonor_in_sync.
  - intros [= <-]. unfold onDonorTableItemClicked.
    destruct (find_distance id (donorIds w)) as [i|] eqn:Ef; [|done].
    apply sync_load; [done|done|].
    apply find_distance_Some in Ef as [Hi Hl]. apply at_index_Some.
    split; [lia|done].
  - intros [= <-]. by apply new_in_sync.
Qed.

(** Between two events of a session the window is in sync with the store:
    the hypotheses of C5 and C6 hold of every state a session reaches. *)
Lemma run_in_sync (es : list Event) w :
  run emailRegex (real := real) es = Some w -> in_sync w.
Proof.
  unfold run.
  assert (in_sync (new true (@createTables real))) as H0.
  { apply new_in_sync. intros k [x Hx]. cbn in Hx. by rewrite lookup_empty in Hx. }
  revert H0. generalize (new true (@createTables real)).
  induction es as [|e es IH]; intros w0 H0; cbn.
  - by intros [= <-].
  - destruct (handle emailRegex w0 e) as [w1|] eqn:Eh; [|done].
    apply IH. by apply (handle_in_sync w0 e).
Qed.

(** No event reads outside the vector. *)
Lemma handle_defined w e :
  in_sync w -> Z.of_nat (length (donorIds w)) < 2 ^ 63 ->
  is_Some (handle emailRegex w e).
Proof.
  intros Hs Hbig. pose proof (in_sync_cursor_ok w Hs Hbig) as Hok.
  pose proof (next_condition w Hok) as Hnext.
  destruct Hok as [_ Hok].
  destruct e; cbn [handle]; try done.
  - unfold loadPreviousDonor.
    destruct (Z.ltb_spec 0 (currentDonorIndex w)) as [Hi|Hi]; [|done].
    destruct (at_index_in_range (donorIds w) (currentDonorIndex w - 1))
      as [id Hid].
    { destruct Hok as [[_ ?]|[? ?]]; lia. }
    cbn [donorIds currentDonorIndex set_index]. by rewrite Hid.
  - unfold loadNextDonor. rewrite Hnext.
    destruct (Z.ltb_spec (currentDonorIndex w)
                (Z.of_nat (length (donorIds w)) - 1)) as [Hi|Hi]; [|done].
    destruct (at_index_in_range (donorIds w) (currentDonorIndex w + 1))
      as [id Hid].
    { destruct Hok as [[Hnil ?]|[? ?]]; [|lia]. rewrite Hnil in Hi. cbn in Hi. lia. }
    cbn [donorIds currentDonorIndex set_index]. by rewrite Hid.
Qed.

End Session.

Lemma populateDonorIds_refresh_witness :
  let w' := MainWindow.populateDonorIds true Cents.stale_window in
  MainWindow.donorIds w' = [1] /\
  MainWindow.currentDonorIndex w' = -1 /\
  MainWindow.currentDonorId w' = 2 /\
  2 ∉ MainWindow.donorIds w'.
Proof.
  cbn zeta.
  destruct (populateDonorIds_refresh Cents.stale_window) as (_ & Hid & _ & _ & Hc).
  { intros H. vm_compute in H. discriminate H. }
  split; [reflexivity|]. split; [reflexivity|]. split; [exact Hid|].
  destruct Hc as [[_ Hat]|[_ [Hn|Hn]]].
  - vm_compute in Hat. discriminate Hat.
  - vm_compute in Hn. discriminate Hn.
  - exact Hn.
Defined.

Lemma previous_next_step_or_noop_witness :
  MainWindow.loadPreviousDonor true Cents.window2 = Some Cents.window2 /\
  exists w', MainWindow.loadNextDonor true Cents.window2 = Some w' /\
             MainWindow.currentDonorIndex w' = 1 /\
             MainWindow.donorIds w' = [1; 2].
Proof.
  destruct (previous_next_step_or_noop true Cents.window2)
    as (_ & _ & Hnext & _ & Hprev & _).
  { split; [reflexivity|]. right. unfold MainWindow.positioned. cbn. lia. }
  split; [apply Hprev; reflexivity|].
  destruct Hnext as (id & w' & _ & Hn & _ & Hi & Hids & _); [cbn; lia|].
  exists w'. split; [exact Hn|]. split; [exact Hi|exact Hids].
Defined.

(** ** [LIKE] against a literal term *)

Section LikeFacts.
Import Text.
#[local] Arguments String.append !_ _ : simpl nomatch.

Lemma append_assoc (a b c : string) : ((a ++ b) ++ c = a ++ b ++ c)%string.
Proof. induction a as [|x a IH]; [done|]. simpl. by rewrite IH. Qed.

Lemma append_nil_r (a : string) : (a ++ "")%string = a.
Proof. induction a as [|x a IH]; [done|]. simpl. by rewrite IH. Qed.

Lemma tolower_idem (c : ascii) : tolower (tolower c) = tolower c.
Proof. by destruct c as [[] [] [] [] [] [] [] []]. Qed.

Lemma tolower_wildcard (c : ascii) : is_wildcard (tolower c) = is_wildcard c.
Proof. by destruct c as [[] [] [] [] [] [] [] []]. Qed.

Lemma tolower_nul (c : ascii) :
  Ascii.eqb (tolower c) "000" = Ascii.eqb c "000".
Proof. by destruct c as [[] [] [] [] [] [] [] []]. Qed.

Lemma LOWER_idem (s : string) : LOWER (LOWER s) = LOWER s.
Proof. induction s as [|c s IH]; [done|]. simpl. by rewrite tolower_idem, IH. Qed.

Lemma LOWER_app (a b : string) : LOWER (a ++ b) = (LOWER a ++ LOWER b)%string.
Proof. induction a as [|c a IH]; [done|]. simpl. by rewrite IH. Qed.

Lemma LOWER_app_inv (s a b : string) :
  LOWER s = (a ++ b)%string ->
  exists s1 s2, s = (s1 ++ s2)%string /\ LOWER s1 = a /\ LOWER s2 = b.
Proof.
  revert s. induction a as [|c a IH]; intros s H.
  - by exists EmptyString, s.
  - destruct s as [|x s]; [done|]. simpl in H. injection H as Hc Hs.
    destruct (IH s Hs) as (s1 & s2 & -> & H1 & H2).
    exists (String x s1), s2. simpl. by rewrite Hc, H1, H2.
Qed.

Lemma LOWER_empty (s : string) : LOWER s = EmptyString -> s = EmptyString.
Proof. by destruct s. Qed.

(** One unfolding of [%]. *)
Lemma like_percent (p t : string) :
  like (String "%" p) t =
  (like p t ||
   match t with
   | EmptyString => false
   | String _ t' => like (String "%" p) t'
   end)%bool.
Proof. by destruct t. Qed.

Lemma like_percent_iff (p t : string) :
  like (String "%" p) t = true <->
  exists pre post, t = (pre ++ post)%string /\ like p post = true.
Proof.
  induction t as [|c t IH]; rewrite like_percent, orb_true_iff.
  - split.
    + intros [H|H]; [|done]. by exists EmptyString, EmptyString.
    + intros (pre & post & Ht & H). left.
      destruct pre; [|done]. simpl in Ht. by subst post.
  - rewrite IH. split.
    + intros [H|(pre & post & -> & H)].
      * by exists EmptyString, (String c t).
      * by exists (String c pre), post.
    + intros ([|x pre] & post & Ht & H).
      * left. simpl in Ht. by subst post.
      * right. simpl in Ht. injection Ht as -> ->. by exists pre, post.
Qed.

Lemma like_percent_only (t : string) : like "%" t = true.
Proof.
  apply like_percent_iff. exists t, EmptyString. by rewrite append_nil_r.
Qed.

(** A stretch of pattern without wildcards matches a stretch of text of the
    same letters up to ASCII case. *)
Lemma like_literal (p q t : string) :
  all_chars (fun c => negb (is_wildcard c)) p = true ->
  like (p ++ q) t = true <->
  exists mid rest, t = (mid ++ rest)%string /\ LOWER mid = LOWER p /\
                   like q rest = true.
Proof.
  revert t. induction p as [|c p IH]; intros t Hp.
  - simpl. split.
    + intros H. by exists EmptyString, t.
    + intros (mid & rest & -> & Hm & H). apply LOWER_empty in Hm. by subst mid.
  - simpl in Hp. apply andb_true_iff in Hp as [Hc Hp].
    unfold is_wildcard in Hc. apply negb_true_iff, orb_false_iff in Hc as [Hc1 Hc2].
    simpl. rewrite Hc1. destruct t as [|x t].
    + split; [done|]. by intros ([|? ?] & rest & Ht & Hm & _).
    + rewrite Hc2, andb_true_iff, (IH t Hp), Ascii.eqb_eq. split.
      * intros (Hx & mid & rest & -> & Hm & H).
        exists (String x mid), rest. simpl. by rewrite Hx, Hm.
      * intros ([|y mid] & rest & Ht & Hm & H); [done|].
        simpl in Ht, Hm. injection Ht as -> ->. injection Hm as Hx Hm.
        split; [done|]. by exists mid, rest.
Qed.

(** [% term %] with a wildcard-free term is "the term occurs, up to ASCII
    case". *)
Lemma like_contains (p t : string) :
  all_chars (fun c => negb (is_wildcard c)) p = true ->
  like ("%" ++ p ++ "%") t = true <->
  exists pre mid post, t = (pre ++ mid ++ post)%string /\ LOWER mid = LOWER p.
Proof.
  intros Hp. change ("%" ++ p ++ "%")%string with (String "%" (p ++ "%")).
  rewrite like_percent_iff. split.
  - intros (pre & post & -> & H). apply like_literal in H as (mid & rest & -> & Hm & _);
      [|done]. by exists pre, mid, rest.
  - intros (pre & mid & post & -> & Hm). exists pre, (mid ++ post)%string.
    split; [done|]. apply like_literal; [done|].
    exists mid, post. split; [done|]. split; [done|]. apply like_percent_only.
Qed.

Lemma like_contains_lower (p f : string) :
  all_chars (fun c => negb (is_wildcard c)) p = true ->
  like ("%" ++ LOWER p ++ "%") (LOWER f) = true <->
  occurs_in (LOWER p) (LOWER f).
Proof.
  intros Hp. rewrite like_contains.
  - rewrite LOWER_idem. unfold occurs_in. split.
    + intros (pre & mid & post & Ht & Hm). exists pre, post.
      pose proof Ht as Ht'.
      apply LOWER_app_inv in Ht' as (s1 & s2 & _ & _ & H2).
      apply LOWER_app_inv in H2 as (s3 & s4 & _ & H3 & _).
      rewrite <- H3, LOWER_idem, H3 in Hm. by rewrite <- Hm.
    + intros (pre & post & Ht). exists pre, (LOWER p), post.
      by rewrite LOWER_idem.
  - clear f. induction p as [|c p IH]; [done|]. simpl in *.
    apply andb_true_iff in Hp as [Hc Hp]. by rewrite tolower_wildcard, Hc, IH.
Qed.

Lemma plain_no_wildcard (s : string) :
  plain s = true -> all_chars (fun c => negb (is_wildcard c)) s = true.
Proof.
  unfold plain. induction s as [|c s IH]; [done|]. simpl.
  rewrite !andb_true_iff. unfold plain_char at 1. rewrite !andb_true_iff.
  intros [[[_ Hw] _] Hs]. auto.
Qed.

Lemma c_str_pattern (s : string) :
  plain s = true ->
  c_str ("%" ++ LOWER s ++ "%") = ("%" ++ LOWER s ++ "%")%string.
Proof.
  intros Hs. apply c_str_id. simpl.
  unfold plain in Hs. induction s as [|c s IH]; [done|]. simpl in *.
  apply andb_true_iff in Hs as [Hc Hs]. unfold plain_char in Hc.
  apply andb_true_iff in Hc as [_ Hc]. by rewrite tolower_nul, Hc, IH.
Qed.

Lemma prefix_iff (t s : string) :
  String.prefix t s = true <-> exists post, s = (t ++ post)%string.
Proof.
  revert s. induction t as [|c t IH]; intros s.
  - destruct s; (split; [intros _|done]); by eexists.
  - destruct s as [|x s]; simpl.
    + split; [done|]. by intros [post H].
    + destruct (ascii_dec c x) as [->|Hne].
      * rewrite IH. split; intros [post H]; exists post; [by rewrite H|].
        by injection H.
      * split; [done|]. intros [post H]. by injection H.
Qed.

Lemma occurs_inb_spec (t s : string) : occurs_inb t s = true <-> occurs_in t s.
Proof.
  unfold occurs_in. induction s as [|c s IH]; cbn [occurs_inb].
  - rewrite orb_false_r, prefix_iff. split.
    + intros [post H]. by exists EmptyString, post.
    + intros ([|? ?] & post & H); [by exists post|done].
  - rewrite orb_true_iff, IH, prefix_iff. split.
    + intros [[post H]|(pre & post & H)].
      * by exists EmptyString, post.
      * exists (String c pre), post. simpl. by rewrite H.
    + intros ([|x pre] & post & H).
      * left. by exists post.
      * right. simpl in H. injection H as -> H. by exists pre, post.
Qed.

End LikeFacts.

(** ** [searchDonors] with a term *)

Section SearchTerm.
Import Text Sqlite DonationTracker.
Context {real : Type}.

Lemma StronglySorted_filter {A : Type} (R : relation A) (P : A -> Prop)
    `{!forall x, Decision (P x)} (l : list A) :
  StronglySorted R l -> StronglySorted R (filter P l).
Proof.
  induction 1 as [|x l Hs IH Hall]; [constructor|].
  rewrite filter_cons. destruct (decide (P x)); [|done].
  constructor; [done|]. apply Forall_forall. intros y Hy.
  apply list_elem_of_filter in Hy as [_ Hy].
  rewrite Forall_forall in Hall. auto.
Qed.

Lemma where_like_plain (term : string) (d : Donor) :
  plain term = true ->
  where_like (lowerSearchTerm term) d = true <->
  exists f, f ∈ searched_fields d /\ occurs_in (toLower term) (LOWER f).
Proof.
  intros Hp. unfold where_like, lowerSearchTerm, toLower.
  rewrite c_str_pattern, existsb_exists by done.
  split; intros (f & Hf & H); exists f.
  - split; [by apply list_elem_of_In|].
    by apply like_contains_lower; [apply plain_no_wildcard|].
  - split; [by apply list_elem_of_In|].
    by apply like_contains_lower; [apply plain_no_wildcard|].
Qed.

Lemma is_empty_false (s : string) : s <> EmptyString -> is_empty s = false.
Proof. by destruct s. Qed.

Lemma is_empty_LOWER (s : string) : is_empty (LOWER s) = is_empty s.
Proof. by destruct s. Qed.

(** C4 (as the code has it).  For a non-empty term of 7-bit characters
    other than [%], [_] and NUL, and [includeAll] false, the table gets one
    row for each donor such that the lower-cased term occurs in the
    lower-cased text of one of the eight searched columns, and for no other;
    the rows come by ascending id.  A term with the same lower-casing, so
    any other casing of the term, gives the same table. *)
Theorem searchDonors_plain_term (db : Db real) term table :
  term <> EmptyString -> plain term = true ->
  exists rows : list (Z * Donor),
    searchDonors true db term table false = map donor_cells rows /\
    (forall id d, (id, d) ∈ rows <->
       donors db !! id = Some d /\
       exists f, f ∈ searched_fields d /\ occurs_in (toLower term) (LOWER f)) /\
    StronglySorted (fun a b : Z * Donor => a.1 < b.1) rows /\
    (forall term', toLower term' = toLower term ->
       searchDonors true db term' table false =
       searchDonors true db term table false).
Proof.
  intros Hne Hp.
  exists (filter (fun r => where_like (lowerSearchTerm term) r.2 = true)
                 (scan (donors db))).
  unfold searchDonors, search_rows. rewrite (is_empty_false term Hne).
  cbn [orb]. split; [done|]. split; [|split].
  - intros id d. rewrite list_elem_of_filter, elem_of_scan. cbn [snd].
    rewrite where_like_plain by done. tauto.
  - apply StronglySorted_filter, scan_sorted.
  - intros term' Hl. unfold lowerSearchTerm. rewrite Hl.
    assert (is_empty term' = false) as ->; [|done].
    rewrite <- is_empty_LOWER. unfold toLower in Hl. rewrite Hl.
    rewrite is_empty_LOWER. by apply is_empty_false.
Qed.

End SearchTerm.

(** C4 (the claim fails).  The term is [_].  Donor 1 is listed, and [_]
    occurs in none of its eight searched columns, lower-cased or not. *)
Lemma searchDonors_underscore_lists_all :
  DonationTracker.searchDonors true Cents.db1 "_" [] false =
    [DonationTracker.donor_cells (1, Cents.ann)] /\
  forallb (fun f => negb (Text.occurs_inb "_" f) &&
                    negb (Text.occurs_inb (Text.toLower "_") (Text.LOWER f)))
          (DonationTracker.searched_fields Cents.ann) = true.
Proof. vm_compute. split; reflexivity. Qed.

Lemma searchDonors_plain_term_witness :
  exists rows : list (Z * Donor),
    DonationTracker.searchDonors true Cents.db2 "SPRING" [] false =
      map DonationTracker.donor_cells rows /\
    (forall id d, (id, d) ∈ rows <->
       donors Cents.db2 !! id = Some d /\
       exists f, f ∈ DonationTracker.searched_fields d /\
                 Text.occurs_in (Text.toLower "SPRING") (Text.LOWER f)) /\
    StronglySorted (fun a b : Z * Donor => a.1 < b.1) rows /\
    (forall term', Text.toLower term' = Text.toLower "SPRING" ->
       DonationTracker.searchDonors true Cents.db2 term' [] false =
       DonationTracker.searchDonors true Cents.db2 "SPRING" [] false).
Proof.
  apply (searchDonors_plain_term Cents.db2 "SPRING" []);
    [discriminate | reflexivity].
Defined.

(** ** The year filter *)

Section YearFilter.
Import Text.
#[local] Arguments String.append !_ _ : simpl nomatch.

Lemma string_of_uint_chars (d : Decimal.uint) :
  all_chars year_char (NilEmpty.string_of_uint d) = true.
Proof. induction d; simpl; auto. Qed.

Lemma to_string_chars (z : Z) : all_chars year_char (to_string z) = true.
Proof.
  unfold to_string, NilZero.string_of_int, NilZero.string_of_uint.
  destruct (Z.to_int z) as [d|d]; destruct d; simpl; auto using string_of_uint_chars.
Qed.

Lemma c_str_to_string (z : Z) : c_str (to_string z) = to_string z.
Proof.
  apply c_str_id. pose proof (to_string_chars z) as H.
  induction (to_string z) as [|c s IH]; [done|]. simpl in *.
  apply andb_true_iff in H as [Hc Hs]. unfold year_char in Hc.
  apply andb_true_iff in Hc as [_ Hc]. by rewrite Hc, IH.
Qed.

(** Against a string that has no byte from 0xC0 up, the first [n]
    characters and the first [n] bytes agree. *)
Lemma SUBSTR1_bytes (n : nat) (s y : string) :
  all_chars (fun c => negb (is_lead c)) y = true ->
  SUBSTR1 n s = y <-> String.substring 0 n s = y.
Proof.
  revert s y. induction n as [|n IH]; intros s y Hy.
  - by destruct s.
  - destruct s as [|c s]; [done|]. simpl.
    destruct (is_lead c) eqn:Ec.
    + split; intros H; subst y; simpl in Hy; by rewrite Ec in Hy.
    + destruct y as [|x y].
      * split; intros H; discriminate H.
      * simpl in Hy. apply andb_true_iff in Hy as [_ Hy].
        split; intros H; injection H as -> H; f_equal; by apply (IH s y).
Qed.

Lemma year_filter_bytes (year : Z) (dt : string) :
  SUBSTR1 4 dt = c_str (to_string year) <->
  String.substring 0 4 dt = to_string year.
Proof.
  rewrite c_str_to_string. apply SUBSTR1_bytes.
  pose proof (to_string_chars year) as H.
  induction (to_string year) as [|c s IH]; [done|]. simpl in *.
  apply andb_true_iff in H as [Hc Hs]. unfold year_char in Hc.
  apply andb_true_iff in Hc as [Hc _]. by rewrite Hc, IH.
Qed.

End YearFilter.

(** ** [GROUP BY] over a join that comes parent by parent *)

Section GroupFacts.
Import Sqlite.
Context {A B : Type}.
Variable kd : A -> Z.
Variable key : B -> Z.
Variable Block : A -> list B.

Lemma filter_all (P : B -> Prop) `{!forall x, Decision (P x)} (l : list B) :
  (forall x, x ∈ l -> P x) -> filter P l = l.
Proof.
  induction l as [|x l IH]; intros Hall; [done|].
  rewrite filter_cons_True by (apply Hall; left).
  f_equal. apply IH. intros y Hy. apply Hall. by right.
Qed.

Lemma StronglySorted_lt_le (l : list Z) :
  StronglySorted Z.lt l -> StronglySorted Z.le l.
Proof.
  induction 1 as [|x l Hs IH Hall]; constructor; [done|].
  eapply Forall_impl; [exact Hall|]. intros y Hy. cbn in Hy. lia.
Qed.

Lemma StronglySorted_lt_NoDup (l : list Z) : StronglySorted Z.lt l -> NoDup l.
Proof.
  induction 1 as [|x l Hs IH Hall]; constructor; [|done].
  intros Hx. rewrite Forall_forall in Hall. specialize (Hall x Hx). lia.
Qed.

(** Sorting the distinct elements of [K] gives the one strictly ascending
    list with the elements of [K]. *)
Lemma sort_distinct (K L : list Z) :
  StronglySorted Z.lt L -> (forall k, k ∈ L <-> k ∈ K) ->
  merge_sort Z.le (remove_dups K) = L.
Proof.
  intros Hs Hel. apply (StronglySorted_unique Z.le).
  - apply StronglySorted_merge_sort; apply _.
  - by apply StronglySorted_lt_le.
  - rewrite merge_sort_Permutation. apply NoDup_Permutation.
    + apply NoDup_remove_dups.
    + by apply StronglySorted_lt_NoDup.
    + intros k. by rewrite elem_of_remove_dups, Hel.
Qed.

Hypothesis key_block : forall a r, r ∈ Block a -> key r = kd a.

Lemma filter_key_flat_map (k : Z) (D : list A) :
  filter (fun r => key r = k) (flat_map Block D) =
  flat_map Block (filter (fun a => kd a = k) D).
Proof.
  induction D as [|a D IH]; [done|].
  cbn [flat_map]. rewrite filter_app, IH, filter_cons.
  destruct (decide (kd a = k)) as [Hk|Hk].
  - cbn [flat_map]. f_equal. apply filter_all.
    intros r Hr. by rewrite (key_block a r Hr).
  - rewrite filter_none; [done|].
    intros r Hr. by rewrite (key_block a r Hr).
Qed.

Lemma filter_own_key (D : list A) (d : A) :
  StronglySorted (fun a b => kd a < kd b) D -> d ∈ D ->
  filter (fun a => kd a = kd d) D = [d].
Proof.
  induction 1 as [|a D Hs IH Hall]; intros Hd; [by apply elem_of_nil in Hd|].
  rewrite Forall_forall in Hall. rewrite filter_cons.
  apply elem_of_cons in Hd as [->|Hd].
  - rewrite decide_True by done. f_equal. apply filter_none.
    intros b Hb. specialize (Hall b Hb). lia.
  - rewrite decide_False by (specialize (Hall d Hd); lia). by apply IH.
Qed.

Lemma keys_of_blocks (D : list A) (k : Z) :
  k ∈ map kd (filter (fun d => Block d <> []) D) <->
  k ∈ map key (flat_map Block D).
Proof.
  rewrite !list_elem_of_In, !in_map_iff. split.
  - intros (d & <- & Hd). apply list_elem_of_In, list_elem_of_filter in Hd as [Hne Hd].
    destruct (Block d) as [|r l] eqn:Eb; [done|].
    exists r. assert (r ∈ Block d) as Hr by (rewrite Eb; left).
    split; [by apply key_block|].
    apply in_flat_map. exists d. by rewrite <- !list_elem_of_In.
  - intros (r & <- & Hr). apply in_flat_map in Hr as (d & Hd & Hr).
    apply list_elem_of_In in Hd. apply list_elem_of_In in Hr.
    exists d. split; [symmetry; by apply key_block|].
    apply list_elem_of_In, list_elem_of_filter. split; [|done].
    intros Hnil. rewrite Hnil in Hr. by apply elem_of_nil in Hr.
Qed.

Lemma StronglySorted_map_key (D : list A) :
  StronglySorted (fun a b => kd a < kd b) D -> StronglySorted Z.lt (map kd D).
Proof.
  induction 1 as [|a D Hs IH Hall]; [constructor|].
  cbn [map]. constructor; [done|].
  apply Forall_forall. intros k Hk.
  apply list_elem_of_In, in_map_iff in Hk as (b & <- & Hb).
  rewrite Forall_forall in Hall. apply Hall. by apply list_elem_of_In.
Qed.

(** Grouping by the parent key a join that lists the children parent by
    parent, parents by ascending key: one group per parent that has
    children, in the order of the parents. *)
Lemma group_by_blocks (D : list A) :
  StronglySorted (fun a b => kd a < kd b) D ->
  group_by key (flat_map Block D) =
  map Block (filter (fun d => Block d <> []) D).
Proof.
  intros Hs. unfold group_by.
  rewrite (sort_distinct _ (map kd (filter (fun d => Block d <> []) D))).
  - rewrite map_map. apply map_ext_in. intros d Hd.
    apply list_elem_of_In, list_elem_of_filter in Hd as [_ Hd].
    rewrite filter_key_flat_map, (filter_own_key D d Hs Hd).
    cbn [flat_map]. by rewrite app_nil_r.
  - by apply StronglySorted_map_key, StronglySorted_filter.
  - apply keys_of_blocks.
Qed.

End GroupFacts.

(** ** The letter query, donor by donor *)

Section LetterRows.
Import Text Sqlite DonationTracker.
#[local] Arguments String.append !_ _ : simpl nomatch.
Context {real : Type}.
Variable SUM : list real -> real.
Variable number_f2 : real -> string.
Variable today : string.
Variable arg : string -> string -> string.

Lemma filter_flat_map {A B : Type} (P : B -> Prop) `{!forall x, Decision (P x)}
    (f : A -> list B) (D : list A) :
  filter P (flat_map f D) = flat_map (fun a => filter P (f a)) D.
Proof.
  induction D as [|a D IH]; [done|]. cbn [flat_map]. by rewrite filter_app, IH.
Qed.

Lemma filter_map {A B : Type} (P : B -> Prop) `{!forall x, Decision (P x)}
    (g : A -> B) (l : list A) :
  filter P (map g l) = map g (filter (fun a => P (g a)) l).
Proof.
  induction l as [|a l IH]; [done|]. cbn [map]. rewrite !filter_cons, IH.
  by destruct (decide (P (g a))).
Qed.

(** The join rows the [WHERE] clause keeps for donor [d]. *)
Abbreviation year_block db year :=
  (fun d : Z * Donor =>
     map (fun don : Z * Donation real => (d, don))
         (year_donations db year d.1)).

Lemma where_join (db : Db real) (year : Z) :
  filter (where_year year) (join_donations db) =
  flat_map (year_block db year) (scan (donors db)).
Proof.
  unfold join_donations. rewrite filter_flat_map. apply flat_map_ext. intros d.
  rewrite filter_map, list_filter_filter. f_equal. unfold year_donations.
  apply list_filter_iff. intros don. unfold where_year. cbn [fst snd].
  rewrite year_filter_bytes. tauto.
Qed.

Lemma letter_row_block (db : Db real) (year : Z) (d : Z * Donor) :
  letter_row SUM (year_block db year d) =
  match year_donations db year d.1 with
  | [] => None
  | ms => Some (d.2, SUM (map (fun don => amount don.2) ms))
  end.
Proof.
  cbn beta. destruct (year_donations db year d.1) as [|m ms]; [reflexivity|].
  unfold letter_row. cbn [map fst snd]. do 3 f_equal. by rewrite map_map.
Qed.

Lemma letter_rows_eq_spec (db : Db real) (year : Z) :
  letter_rows SUM db year = letters_spec SUM db year.
Proof.
  unfold letter_rows, letters_spec. rewrite where_join.
  rewrite (group_by_blocks (fun d : Z * Donor => d.1)).
  - induction (scan (donors db)) as [|d D IH]; [done|].
    cbn [omap list_omap]. rewrite <- letter_row_block, <- IH. cbn beta.
    destruct (year_donations db year d.1) as [|m ms] eqn:E.
    + rewrite filter_cons_False; [done|]. cbn beta. rewrite E. by intros H.
    + rewrite filter_cons_True by (cbn beta; by rewrite E).
      cbn [map omap list_omap]. cbn beta. by rewrite E.
  - intros d r Hr. apply list_elem_of_In, in_map_iff in Hr as (don & <- & _). done.
  - apply scan_sorted.
Qed.

Abbreviation path_of' year row :=
  (fileName arg (first_name row.1) (last_name row.1) year).


End LetterRows.

(** ** Amounts as text *)

Section NumberText.
Import Text.
#[local] Arguments String.append !_ _ : simpl nomatch.






End NumberText.


(** ** The examples of the specification, run on the instance *)

(** Gifts of 10.00 and 25.50 dated in 2024 and one of 7.00 dated in 2023:
    the run for 2024 writes one letter, with the total 35.50. *)
Example letters_2024_example :
  let run := Cents.letters true (fun _ => true) Cents.db2 ∅ 2024 in
  DonationTracker.letter_rows Cents.SUM Cents.db2 2024 = [(Cents.ann, 3550)] /\
  DonationTracker.success run = true /\
  DonationTracker.attempted run = ["letters/Ann_Lee_2024_donation_letter.txt"]%string /\
  exists s,
    DonationTracker.files run !! "letters/Ann_Lee_2024_donation_letter.txt"%string
      = Some s /\
    Text.occurs_inb "total donation of $35.50 to " s = true.
Proof.
  cbn zeta. split; [vm_compute; reflexivity|]. split; [vm_compute; reflexivity|].
  split; [vm_compute; reflexivity|]. eexists. split; vm_compute; reflexivity.
Qed.

(** A donation for a donor id that no donor has is accepted and stored. *)
Example addDonation_unknown_donor_example :
  let r := DonationTracker.addDonation true (@createTables Z) 42 500
             "2024-01-15" "cash" in
  donors (@createTables Z) !! 42 = None /\
  r.1 = true /\
  donations r.2 !! 1 = Some (mkDonation 42 500 "2024-01-15" "cash").
Proof. vm_compute. repeat split. Qed.

(** A donor in Springfield is found by [spring], [SPRING] and [ingfi]. *)
Example search_springfield_example :
  Forall (fun term =>
            DonationTracker.searchDonors true Cents.db2 term [] false =
            [DonationTracker.donor_cells (1, Cents.ann)])
         ["spring"; "SPRING"; "ingfi"]%string.
Proof. repeat constructor. Qed.

(** A session: two donors are added, the cursor goes back to the first, and
    that donor is deleted. *)
Example session_example :
  MainWindow.run Cents.emailRegex (real := Z)
    [MainWindow.AddDonor true Cents.ann; MainWindow.AddDonor true Cents.bob;
     MainWindow.Previous; MainWindow.DeleteDonor true] =
  Some (MainWindow.mkWindow
          (DonationTracker.deleteDonor true
             (DonationTracker.addDonor true
                (DonationTracker.addDonor true createTables Cents.ann).2
                Cents.bob).2 1).2
          [2] 0 2).
Proof. vm_compute. reflexivity. Qed.

(** * Further properties of the persistence layer *)

(** ** Scans of a table after an insertion or a deletion *)

Section ScanUpdates.
Import Sqlite.
Context {A : Type}.

Lemma keys_lt_le (l : list (Z * A)) :
  StronglySorted (fun a b : Z * A => a.1 < b.1) l -> StronglySorted key_le l.
Proof.
  induction 1 as [|x l Hs IH Hall]; constructor; [done|].
  eapply Forall_impl; [exact Hall|]. intros y Hy. unfold key_le. cbn in Hy. lia.
Qed.

Lemma keys_lt_NoDup (l : list (Z * A)) :
  StronglySorted (fun a b : Z * A => a.1 < b.1) l -> NoDup l.
Proof.
  induction 1 as [|x l Hs IH Hall]; constructor; [|done].
  intros Hx. rewrite Forall_forall in Hall. specialize (Hall x Hx). lia.
Qed.

(** The scan is the one list, strictly ascending by row id, that holds the
    rows of the table. *)
Lemma scan_unique (t : gmap Z A) (l : list (Z * A)) :
  StronglySorted (fun a b : Z * A => a.1 < b.1) l ->
  (forall k v, (k, v) ∈ l <-> t !! k = Some v) ->
  scan t = l.
Proof.
  intros Hs Hel.
  assert (forall x, x ∈ scan t <-> x ∈ l) as Hsame.
  { intros [k v]. by rewrite elem_of_scan, Hel. }
  apply (StronglySorted_unique_strong key_le).
  - intros [k1 v1] [k2 v2] H1 H2 Hle1 Hle2. unfold key_le in *. cbn in *.
    assert (k1 = k2) as -> by lia.
    apply elem_of_scan in H1. apply Hel in H2. congruence.
  - apply scan_sorted_le.
  - by apply keys_lt_le.
  - apply NoDup_Permutation; [|by apply keys_lt_NoDup|done].
    apply keys_lt_NoDup, scan_sorted.
Qed.

Lemma StronglySorted_snoc (R : relation (Z * A)) (l : list (Z * A)) (y : Z * A) :
  StronglySorted R l -> (forall x, x ∈ l -> R x y) -> StronglySorted R (l ++ [y]).
Proof.
  induction 1 as [|x l Hs IH Hall]; intros Hy; cbn.
  - repeat constructor.
  - constructor.
    + apply IH. intros z Hz. apply Hy. by right.
    + apply Forall_app. split; [done|]. constructor; [|constructor].
      apply Hy. by left.
Qed.

(** A row put in under an id above every id of the table comes last. *)
Lemma scan_insert_last (t : gmap Z A) (k : Z) (v : A) :
  (forall k' v', t !! k' = Some v' -> k' < k) ->
  scan (<[k := v]> t) = scan t ++ [(k, v)].
Proof.
  intros Hmax. apply scan_unique.
  - apply StronglySorted_snoc; [apply scan_sorted|].
    intros [k' v'] H. apply elem_of_scan in H. cbn. by apply (Hmax k' v').
  - intros k' v'. rewrite elem_of_app, elem_of_scan, list_elem_of_singleton.
    rewrite lookup_insert. case_decide as Hk.
    + subst k'. split.
      * intros [H|[= <-]]; [|done]. apply Hmax in H. lia.
      * intros [= <-]. by right.
    + split; [|by left]. intros [H|[= ? ?]]; [done|congruence].
Qed.

Lemma scan_delete (t : gmap Z A) (k : Z) :
  scan (delete k t) = filter (fun r : Z * A => r.1 <> k) (scan t).
Proof.
  apply scan_unique.
  - apply StronglySorted_filter, scan_sorted.
  - intros k' v'. rewrite list_elem_of_filter, elem_of_scan, lookup_delete_Some.
    cbn. split; intros [? ?]; split; auto.
Qed.

(** Replacing the row under an id that is in the table keeps the place. *)
Lemma scan_keys_insert_present (t : gmap Z A) (k : Z) (v : A) :
  is_Some (t !! k) -> (scan (<[k := v]> t)).*1 = (scan t).*1.
Proof.
  intros Hk. apply (StronglySorted_unique Z.le).
  - apply StronglySorted_lt_le, StronglySorted_map_key, scan_sorted.
  - apply StronglySorted_lt_le, StronglySorted_map_key, scan_sorted.
  - apply NoDup_Permutation; try apply NoDup_scan_keys.
    intros k'. rewrite !list_elem_of_fmap. split.
    + intros [[k1 v1] [-> H]]. apply elem_of_scan in H. cbn.
      rewrite lookup_insert in H. case_decide as Hk1.
      * subst k1. destruct Hk as [v0 Hk]. exists (k, v0).
        split; [done|]. by apply elem_of_scan.
      * exists (k1, v1). split; [done|]. by apply elem_of_scan.
    + intros [[k1 v1] [-> H]]. apply elem_of_scan in H. cbn.
      destruct (decide (k = k1)) as [->|Hne].
      * exists (k1, v). split; [done|]. apply elem_of_scan.
        by rewrite lookup_insert_eq.
      * exists (k1, v1). split; [done|]. apply elem_of_scan.
        by rewrite lookup_insert_ne.
Qed.

End ScanUpdates.

(** ** Donors: insert, update, delete and look up *)

Section DonorStore.
Import Text Sqlite DonationTracker.
Context {real : Type}.
Implicit Types (db : Db real) (d : Donor).

Lemma getAllDonorIds_scan db : getAllDonorIds true db = (scan (donors db)).*1.
Proof.
  unfold getAllDonorIds. apply (StronglySorted_unique Z.le).
  - apply StronglySorted_merge_sort; apply _.
  - apply StronglySorted_lt_le, StronglySorted_map_key, scan_sorted.
  - apply merge_sort_Permutation.
Qed.

Lemma next_rowid_above (seq : Z) {A : Type} (t : gmap Z A) k v :
  t !! k = Some v -> k < next_rowid seq t.
Proof. intros H. apply max_rowid_ge in H. unfold next_rowid. lia. Qed.

(** X1.  [addDonor], when the statement runs, returns [true] and stores the
    fields (as the C strings passed) under an id that is above every id in
    the table and above every id given out before; [getDonorDetails] of that
    id gives the fields back, every other donor reads as before, the new id
    comes last in [getAllDonorIds], and the donations are untouched. *)
Theorem addDonor_then_getDonorDetails db d :
  let r := addDonor true db d in
  let id := next_rowid (donors_seq db) (donors db) in
  r.1 = true /\
  getDonorDetails true r.2 id = Some (bind_donor d) /\
  getDonorDetails true db id = None /\
  donors_seq db < id /\ donors_seq r.2 = id /\
  (forall k, is_Some (donors db !! k) -> k < id) /\
  (forall k, k <> id -> getDonorDetails true r.2 k = getDonorDetails true db k) /\
  getAllDonorIds true r.2 = getAllDonorIds true db ++ [id] /\
  donations r.2 = donations db.
Proof.
  cbn zeta. unfold getDonorDetails. cbn [addDonor fst snd donors donors_seq donations].
  split; [done|]. split; [by rewrite lookup_insert_eq|].
  split; [apply next_rowid_fresh|].
  split; [unfold next_rowid; lia|]. split; [done|].
  split; [intros k [v Hk]; by apply (next_rowid_above _ _ k v)|].
  split; [intros k Hk; by rewrite lookup_insert_ne|].
  split; [|done].
  rewrite !getAllDonorIds_scan. cbn [donors].
  rewrite scan_insert_last, fmap_app; [done|].
  intros k v. apply next_rowid_above.
Qed.

(** X2.  [updateDonor] on an id that a donor has returns [true] and
    replaces all nine fields of that donor; every other donor, the list of
    ids and the donations are as before. *)
Theorem updateDonor_replaces_fields db id d d0 :
  donors db !! id = Some d0 ->
  let r := updateDonor true db id d in
  r.1 = true /\
  getDonorDetails true r.2 id = Some (bind_donor d) /\
  (forall k, k <> id -> getDonorDetails true r.2 k = getDonorDetails true db k) /\
  getAllDonorIds true r.2 = getAllDonorIds true db /\
  donors_seq r.2 = donors_seq db /\
  donations r.2 = donations db.
Proof.
  intros Hid. cbn zeta. unfold getDonorDetails.
  cbn [updateDonor fst snd donors donors_seq donations]. rewrite Hid.
  split; [done|]. split; [by rewrite lookup_insert_eq|].
  split; [intros k Hk; by rewrite lookup_insert_ne|].
  split; [|done].
  rewrite !getAllDonorIds_scan. cbn [donors].
  apply scan_keys_insert_present. by exists d0.
Qed.

(** X3.  After [deleteDonor(id)] has run, [getDonorDetails(id)] finds
    nothing, [getAllDonorIds] is the former list without [id], every other
    donor reads as before, and the id counter is not taken back. *)
Theorem deleteDonor_then_getDonorDetails db id :
  let r := deleteDonor true db id in
  r.1 = true /\
  getDonorDetails true r.2 id = None /\
  (forall k, k <> id -> getDonorDetails true r.2 k = getDonorDetails true db k) /\
  getAllDonorIds true r.2 = filter (fun k => k <> id) (getAllDonorIds true db) /\
  donors_seq r.2 = donors_seq db.
Proof.
  cbn zeta. unfold getDonorDetails.
  cbn [deleteDonor fst snd donors donors_seq].
  split; [done|]. split; [apply lookup_delete_eq|].
  split; [intros k Hk; by rewrite lookup_delete_ne|].
  split; [|done].
  rewrite !getAllDonorIds_scan. cbn [donors]. rewrite scan_delete.
  induction (scan (donors db)) as [|[k v] l IH]; [done|].
  rewrite fmap_cons, !filter_cons. cbn [fst].
  destruct (decide (k <> id)); [|done]. by rewrite fmap_cons, IH.
Qed.

End DonorStore.

Lemma updateDonor_replaces_fields_witness :
  let r := DonationTracker.updateDonor true Cents.db2 2 Cents.ann in
  r.1 = true /\
  DonationTracker.getDonorDetails true r.2 2 = Some Cents.ann /\
  DonationTracker.getDonorDetails true r.2 1 = Some Cents.ann /\
  DonationTracker.getAllDonorIds true r.2 = [1; 2].
Proof.
  cbn zeta.
  destruct (updateDonor_replaces_fields Cents.db2 2 Cents.ann Cents.bob eq_refl)
    as (H1 & H2 & H3 & H4 & _).
  split; [exact H1|]. split; [exact H2|].
  split; [by rewrite H3|]. by rewrite H4.
Defined.

(** ** Ids are given out once *)

Section RowIds.
Import Text Sqlite DonationTracker.
Context {real : Type}.
Implicit Types (db : Db real) (d : Donor).

Lemma max_rowid_nonneg {A : Type} (t : gmap Z A) : 0 <= max_rowid t.
Proof.
  unfold max_rowid. induction ((map_to_list t).*1) as [|k l IH]; cbn; lia.
Qed.

Lemma max_rowid_le_seq db : seq_ok db -> max_rowid (donors db) <= donors_seq db.
Proof.
  intros [H0 Hk]. unfold max_rowid.
  assert (forall k, k ∈ (map_to_list (donors db)).*1 -> k <= donors_seq db) as H.
  { intros k Hin. apply list_elem_of_fmap in Hin as [[k' v] [-> Hin]].
    apply elem_of_map_to_list in Hin. apply Hk. by exists v. }
  induction ((map_to_list (donors db)).*1) as [|k l IH]; cbn; [done|].
  assert (k <= donors_seq db) by (apply H; left).
  assert (foldr Z.max 0 l <= donors_seq db); [|lia].
  apply IH. intros k' Hk'. apply H. by right.
Qed.

Lemma seq_ok_next db :
  seq_ok db -> next_rowid (donors_seq db) (donors db) = donors_seq db + 1.
Proof.
  intros Hok. pose proof (max_rowid_le_seq db Hok). unfold next_rowid. lia.
Qed.

Lemma addDonor_seq_ok io db d : seq_ok db -> seq_ok (addDonor io db d).2.
Proof.
  intros Hok. destruct io; [|done]. pose proof (seq_ok_next db Hok) as Hn.
  destruct Hok as [H0 Hk]. unfold seq_ok. cbn [addDonor snd donors donors_seq].
  rewrite Hn. split; [lia|]. intros k. rewrite lookup_insert.
  case_decide as Hkk; [intros _; lia|]. intros H. apply Hk in H. lia.
Qed.

Lemma deleteDonor_seq_ok io db id : seq_ok db -> seq_ok (deleteDonor io db id).2.
Proof.
  intros Hok. destruct io; [|done]. destruct Hok as [H0 Hk].
  unfold seq_ok. cbn [deleteDonor snd donors donors_seq]. split; [done|].
  intros k [v H]. apply lookup_delete_Some in H as [_ H]. apply Hk. by exists v.
Qed.

(** X4.  The store a fresh file starts as has every donor id between 1 and
    the recorded sequence value, and every method that writes keeps it so,
    whether its statement runs or fails. *)
Theorem writes_keep_seq_ok db :
  seq_ok db ->
  (forall io d, seq_ok (addDonor io db d).2) /\
  (forall io id d, seq_ok (updateDonor io db id d).2) /\
  (forall io id, seq_ok (deleteDonor io db id).2) /\
  (forall io donorId (a : real) dt pm, seq_ok (addDonation io db donorId a dt pm).2) /\
  (forall io id donorId (a : real) dt pm,
     seq_ok (updateDonation io db id donorId a dt pm).2) /\
  (forall io id, seq_ok (deleteDonation io db id).2) /\
  (forall io name address, seq_ok (setOrganizationDetails io db name address).2) /\
  seq_ok (@createTables real).
Proof.
  intros Hok.
  split; [|split; [|split; [|split; [|split; [|split; [|split]]]]]].
  - intros io d. by apply addDonor_seq_ok.
  - intros [] id d; [|done]. destruct Hok as [H0 Hk].
    unfold seq_ok. cbn [updateDonor snd donors donors_seq]. split; [done|].
    intros k. destruct (donors db !! id) eqn:Eid; [|apply Hk].
    rewrite lookup_insert. case_decide as Hkk; [|apply Hk].
    subst k. intros _. apply Hk. by rewrite Eid.
  - intros io id. by apply deleteDonor_seq_ok.
  - intros [] donorId a dt pm; [|done]. unfold addDonation, foreign_keys. done.
  - intros [] id donorId a dt pm; [|done]. unfold updateDonation, foreign_keys.
    by destruct (donations db !! id).
  - by intros [] id.
  - by intros [] name address.
  - split; [done|]. intros k [v Hk]. cbn in Hk. by rewrite lookup_empty in Hk.
Qed.

(** The store after [deleteDonor(id)] and then one [addDonor] for each of
    [ds], all statements running. *)
Lemma readd_seq_ok db (ds : list Donor) :
  seq_ok db ->
  seq_ok (foldl (fun db d => (addDonor true db d).2) db ds) /\
  donors_seq db <= donors_seq (foldl (fun db d => (addDonor true db d).2) db ds) /\
  donations (foldl (fun db d => (addDonor true db d).2) db ds) = donations db /\
  (forall k, k <= donors_seq db ->
     donors (foldl (fun db d => (addDonor true db d).2) db ds) !! k =
     donors db !! k).
Proof.
  revert db. induction ds as [|d ds IH]; intros db Hok; [done|].
  cbn [foldl]. pose proof (addDonor_seq_ok true db d Hok) as Hok'.
  destruct (IH _ Hok') as (H1 & H2 & H3 & H4).
  pose proof (seq_ok_next db Hok) as Hn.
  assert (donors_seq (addDonor true db d).2 = donors_seq db + 1) as Hs
    by (cbn [addDonor snd donors_seq]; exact Hn).
  rewrite Hs in H2, H4.
  split; [done|]. split; [lia|]. split; [by rewrite H3|].
  intros k Hk. rewrite H4 by lia. cbn [addDonor snd donors].
  rewrite Hn. apply lookup_insert_ne. lia.
Qed.

(** X5.  An id is given out once.  In a store as the program builds it,
    once a donor has been deleted no donor added afterwards gets its id,
    however many are added: [getDonorDetails] of the id keeps finding
    nothing, and the donations recorded under the id stay as they were. *)
Theorem deleted_id_never_reused db id d0 (ds : list Donor) :
  seq_ok db -> donors db !! id = Some d0 ->
  let db' := foldl (fun db d => (addDonor true db d).2)
                   (deleteDonor true db id).2 ds in
  getDonorDetails true db' id = None /\
  (forall d, id < next_rowid (donors_seq db') (donors db')) /\
  donations_of db' id = donations_of db id.
Proof.
  intros Hok Hid. cbn zeta.
  pose proof (deleteDonor_seq_ok true db id Hok) as Hok1.
  destruct (readd_seq_ok _ ds Hok1) as (Hok2 & Hseq & Hdon & Hsame).
  assert (id <= donors_seq db) as Hle.
  { destruct Hok as [_ Hk]. apply Hk. by rewrite Hid. }
  split; [|split].
  - unfold getDonorDetails. rewrite Hsame by done. apply lookup_delete_eq.
  - intros _. rewrite (seq_ok_next _ Hok2).
    assert (donors_seq (deleteDonor true db id).2 = donors_seq db) as Hs by done.
    rewrite Hs in Hseq. lia.
  - unfold donations_of. by rewrite Hdon.
Qed.

End RowIds.

Lemma writes_keep_seq_ok_witness :
  DonationTracker.seq_ok
    (DonationTracker.deleteDonor true (@createTables Z) 2).2 /\
  DonationTracker.seq_ok
    (DonationTracker.addDonor true (@createTables Z) Cents.bob).2.
Proof.
  assert (DonationTracker.seq_ok (@createTables Z)) as H0.
  { split; [done|]. intros k [v Hk]. cbn in Hk. by rewrite lookup_empty in Hk. }
  destruct (writes_keep_seq_ok (@createTables Z) H0) as (Ha & _ & Hd & _).
  split; [apply Hd | apply Ha].
Defined.

Lemma deleted_id_never_reused_witness :
  let db := (DonationTracker.deleteDonor true Cents.db1 1).2 in
  let db' := (DonationTracker.addDonor true
                (DonationTracker.addDonor true db Cents.bob).2 Cents.ann).2 in
  DonationTracker.getDonorDetails true db' 1 = None /\
  DonationTracker.getAllDonorIds true db' = [2; 3] /\
  DonationTracker.donations_of db' 1 = DonationTracker.donations_of Cents.db1 1.
Proof.
  cbn zeta.
  assert (DonationTracker.seq_ok Cents.db1) as Hok.
  { assert (DonationTracker.seq_ok (@createTables Z)) as H0.
    { split; [done|]. intros k [v Hk]. cbn in Hk. by rewrite lookup_empty in Hk. }
    apply (addDonor_seq_ok true _ Cents.ann) in H0.
    exact H0. }
  destruct (deleted_id_never_reused Cents.db1 1 Cents.ann [Cents.bob; Cents.ann]
              Hok eq_refl) as (H1 & _ & H3).
  split; [exact H1|]. split; [reflexivity|exact H3].
Defined.

(** ** Donations: list, insert, update and delete *)

Section DonationStore.
Import Text Sqlite DonationTracker.
Context {real : Type}.
Variable number_f2 : real -> string.
Implicit Types (db : Db real).

Global Instance date_ge_trans : Transitive (@date_ge real).
Proof. intros x y z Hxy Hyz. unfold date_ge in *. by eapply string_leb_trans. Qed.

Global Instance date_ge_total : Total (@date_ge real).
Proof. intros x y. unfold date_ge. apply String.leb_total. Qed.

Lemma elem_of_donations_of db donorId k (don : Donation real) :
  (k, don) ∈ donations_of db donorId <->
  donations db !! k = Some don /\ donor_id don = donorId.
Proof.
  unfold donations_of.
  rewrite merge_sort_Permutation, list_elem_of_filter, elem_of_scan. cbn. tauto.
Qed.

Lemma NoDup_donations_of db donorId : NoDup (donations_of db donorId).
Proof.
  unfold donations_of. rewrite merge_sort_Permutation.
  apply NoDup_filter, keys_lt_NoDup, scan_sorted.
Qed.

(** X6.  [getDonationsForDonor] fills the table with one row for each
    donation stored under the donor id, and no other, latest date first
    (dates compared as text); a donor id under which nothing is stored, in
    particular one that no donor has, gives an empty table; and when the
    statement cannot be prepared the table is left as it was. *)
Theorem getDonationsForDonor_rows db donorId table :
  getDonationsForDonor number_f2 true db donorId table =
    map (donation_cells number_f2) (donations_of db donorId) /\
  (forall k don, (k, don) ∈ donations_of db donorId <->
     donations db !! k = Some don /\ donor_id don = donorId) /\
  NoDup (donations_of db donorId) /\
  StronglySorted (fun a b : Z * Donation real =>
                    String.leb (date b.2) (date a.2) = true)
                 (donations_of db donorId) /\
  ((forall k don, donations db !! k = Some don -> donor_id don <> donorId) ->
   getDonationsForDonor number_f2 true db donorId table = []) /\
  getDonationsForDonor number_f2 false db donorId table = table.
Proof.
  split; [done|]. split; [apply elem_of_donations_of|].
  split; [apply NoDup_donations_of|]. split; [|split; [|done]].
  - unfold donations_of. apply (StronglySorted_merge_sort date_ge); apply _.
  - intros Hnone. change (map (donation_cells number_f2) (donations_of db donorId) = []).
    destruct (donations_of db donorId) as [|[k don] l] eqn:E; [done|].
    assert ((k, don) ∈ donations_of db donorId) as Hin by (rewrite E; left).
    apply elem_of_donations_of in Hin as [Hk Hd]. by destruct (Hnone k don Hk).
Qed.

(** X7.  After [addDonation] has run, the new donation is among the rows
    of its donor id, which are otherwise the rows there were, and the rows
    of every other donor id are the same list as before. *)
Theorem addDonation_then_listed db donorId (amt : real) dt pm :
  let r := addDonation true db donorId amt dt pm in
  let id := next_rowid (donations_seq db) (donations db) in
  let don := mkDonation donorId amt (c_str dt) (c_str pm) in
  r.1 = true /\
  donations_of r.2 donorId ≡ₚ (id, don) :: donations_of db donorId /\
  (forall other, other <> donorId ->
     donations_of r.2 other = donations_of db other).
Proof.
  cbn zeta. unfold addDonation, foreign_keys. cbn [andb fst snd].
  split; [done|].
  assert (scan (<[next_rowid (donations_seq db) (donations db) :=
                    mkDonation donorId amt (c_str dt) (c_str pm)]> (donations db)) =
          scan (donations db) ++
            [(next_rowid (donations_seq db) (donations db),
              mkDonation donorId amt (c_str dt) (c_str pm))]) as Hscan.
  { apply scan_insert_last. intros k v. apply next_rowid_above. }
  unfold donations_of. cbn [donations]. rewrite Hscan. split.
  - rewrite filter_app.
    rewrite !merge_sort_Permutation, filter_cons_True, filter_nil by done.
    by rewrite Permutation_app_comm.
  - intros other Hne.
    rewrite filter_app, filter_cons_False, filter_nil, app_nil_r; [done|].
    cbn. congruence.
Qed.

(** X8.  [deleteDonation] returns [true] whenever its statement runs.  It
    takes the row with that id, and only that row, out of the rows of every
    donor id; with no row of that id the store is left as it is. *)
Theorem deleteDonation_removes_row db id :
  let r := deleteDonation true db id in
  r.1 = true /\
  donations r.2 !! id = None /\
  (forall donorId k don,
     (k, don) ∈ donations_of r.2 donorId <->
     k <> id /\ (k, don) ∈ donations_of db donorId) /\
  donors r.2 = donors db /\
  (donations db !! id = None -> r.2 = db).
Proof.
  cbn zeta. cbn [deleteDonation fst snd donations donors].
  split; [done|]. split; [apply lookup_delete_eq|]. split; [|split; [done|]].
  - intros donorId k don. rewrite !elem_of_donations_of. cbn [donations].
    rewrite lookup_delete_Some. split; [intros [[? ?] ?]|intros [? [? ?]]]; auto.
  - intros Hid. rewrite delete_id by done. apply db_eta.
Qed.

(** X9.  [updateDonation] returns [true] whenever its statement runs, and
    checks the donor id against no donor.  On a row that exists it replaces
    donor id, amount, date and payment method, so the donation is listed
    under the new donor id and under no other, and every other row is
    listed as before; with no row of that id the store is left as it is. *)
Theorem updateDonation_moves_row db id donorId (amt : real) dt pm :
  let r := updateDonation true db id donorId amt dt pm in
  let don := mkDonation donorId amt (c_str dt) (c_str pm) in
  r.1 = true /\
  (donations db !! id = None -> r.2 = db) /\
  (is_Some (donations db !! id) ->
     (id, don) ∈ donations_of r.2 donorId /\
     (forall other don', (id, don') ∈ donations_of r.2 other ->
        other = donorId /\ don' = don) /\
     (forall other k don', k <> id ->
        (k, don') ∈ donations_of r.2 other <-> (k, don') ∈ donations_of db other) /\
     donors r.2 = donors db).
Proof.
  cbn zeta. unfold updateDonation, foreign_keys. cbn [andb].
  destruct (donations db !! id) as [don0|] eqn:Eid; cbn [fst snd].
  - split; [done|]. split; [done|]. intros _.
    split; [|split; [|split; [|done]]].
    + apply elem_of_donations_of. cbn [donations]. by rewrite lookup_insert_eq.
    + intros other don' H. apply elem_of_donations_of in H as [H Hd].
      cbn [donations] in H. rewrite lookup_insert_eq in H.
      injection H as <-. by cbn in Hd.
    + intros other k don' Hk. rewrite !elem_of_donations_of. cbn [donations].
      by rewrite lookup_insert_ne.
  - split; [done|]. split; [done|]. by intros [? ?].
Qed.

End DonationStore.

(** ** The organization's address, stored as one text *)

Section AddressText.
Import Text OrganizationDialog.
#[local] Arguments String.append !_ _ : simpl nomatch.

Lemma split_at_skip (sep x acc rest : string) :
  split_at sep (String.length x) acc (x ++ rest) = split_at sep O acc rest.
Proof.
  induction x as [|c x IH]; [by destruct rest|]. exact IH.
Qed.

Lemma split_at_sep (sep acc rest : string) :
  sep <> EmptyString ->
  split_at sep O acc (sep ++ rest) = acc :: split_at sep O EmptyString rest.
Proof.
  intros Hne. destruct sep as [|c sep'] eqn:E; [done|]. rewrite <- E.
  assert (String.prefix sep (sep ++ rest) = true) as Hp
    by (apply prefix_iff; by exists rest).
  rewrite E in *. cbn [String.append split_at]. cbn [String.append] in Hp.
  rewrite Hp. cbn [String.length Nat.pred]. by rewrite split_at_skip.
Qed.

(** A run of bytes in which no separator starts is added to the piece. *)
Lemma split_at_piece (sep acc a rest : string) :
  (forall a1 a2, a = (a1 ++ a2)%string -> a2 <> EmptyString ->
     String.prefix sep (a2 ++ rest) = false) ->
  split_at sep O acc (a ++ rest) = split_at sep O (acc ++ a) rest.
Proof.
  revert acc. induction a as [|c a IH]; intros acc Hno.
  - by rewrite append_nil_r.
  - pose proof (Hno EmptyString (String c a) eq_refl ltac:(done)) as Hp.
    cbn [String.append] in Hp. cbn [String.append split_at]. rewrite Hp.
    rewrite IH.
    + by rewrite append_assoc.
    + intros a1 a2 Ha Hne. apply (Hno (String c a1) a2); [|done].
      cbn [String.append]. by rewrite Ha.
Qed.

Lemma prefix_cons (x c : ascii) (p s : string) :
  String.prefix (String x p) (String c s) =
  if ascii_dec x c then String.prefix p s else false.
Proof. done. Qed.

Lemma prefix_nil (s : string) : String.prefix EmptyString s = true.
Proof. by destruct s. Qed.

Lemma append_cons (c : ascii) (a b : string) :
  (String c a ++ b)%string = String c (a ++ b).
Proof. done. Qed.

Lemma comma_space_not_started (a a1 a2 rest : string) :
  occurs_inb ", " a = false -> a = (a1 ++ a2)%string -> a2 <> EmptyString ->
  rest = EmptyString \/ (exists r, rest = String "," r) ->
  String.prefix ", " (a2 ++ rest) = false.
Proof.
  intros Hno Ha Hne Hrest. destruct a2 as [|c a2]; [done|].
  rewrite append_cons, prefix_cons.
  destruct (ascii_dec "," c) as [<-|]; [|done].
  destruct a2 as [|c' a2].
  - destruct Hrest as [->|[r ->]]; [done|].
    change (EmptyString ++ String "," r)%string with (String "," r).
    rewrite prefix_cons. by destruct (ascii_dec " " ",").
  - rewrite append_cons, prefix_cons.
    destruct (ascii_dec " " c') as [<-|]; [|done].
    exfalso. assert (occurs_inb ", " a = true); [|congruence].
    apply occurs_inb_spec. exists a1, (a2 ++ EmptyString)%string.
    by rewrite Ha, append_nil_r.
Qed.

Lemma space_not_started (a a1 a2 rest : string) :
  occurs_inb " " a = false -> a = (a1 ++ a2)%string -> a2 <> EmptyString ->
  String.prefix " " (a2 ++ rest) = false.
Proof.
  intros Hno Ha Hne. destruct a2 as [|c a2]; [done|].
  rewrite append_cons, prefix_cons.
  destruct (ascii_dec " " c) as [<-|]; [|done].
  exfalso. assert (occurs_inb " " a = true); [|congruence].
  apply occurs_inb_spec. exists a1, a2. by rewrite Ha.
Qed.

Lemma split_at_end (sep acc a : string) :
  (forall a1 a2, a = (a1 ++ a2)%string -> a2 <> EmptyString ->
     String.prefix sep a2 = false) ->
  split_at sep O acc a = [(acc ++ a)%string].
Proof.
  intros Hno. rewrite <- (append_nil_r a) at 1. rewrite split_at_piece; [done|].
  intros a1 a2 Ha Hne. rewrite append_nil_r. by apply (Hno a1 a2).
Qed.

Lemma split_address (street city sz country : string) :
  occurs_inb ", " street = false -> occurs_inb ", " city = false ->
  occurs_inb ", " sz = false -> occurs_inb ", " country = false ->
  split_at ", " O EmptyString
    (street ++ ", " ++ city ++ ", " ++ sz ++ ", " ++ country) =
  [street; city; sz; country].
Proof.
  intros H1 H2 H3 H4.
  rewrite split_at_piece, split_at_sep by
    (try done; intros a1 a2 Ha Hne;
     apply (comma_space_not_started street a1 a2); try done; right; by eexists).
  f_equal.
  rewrite split_at_piece, split_at_sep by
    (try done; intros a1 a2 Ha Hne;
     apply (comma_space_not_started city a1 a2); try done; right; by eexists).
  f_equal.
  rewrite split_at_piece, split_at_sep by
    (try done; intros a1 a2 Ha Hne;
     apply (comma_space_not_started sz a1 a2); try done; right; by eexists).
  f_equal.
  apply split_at_end. intros a1 a2 Ha Hne.
  rewrite <- (append_nil_r a2).
  apply (comma_space_not_started country a1 a2); try done. by left.
Qed.

Lemma split_state_zip (st zp : string) :
  occurs_inb " " st = false -> occurs_inb " " zp = false ->
  split_at " " O EmptyString (st ++ " " ++ zp) = [st; zp].
Proof.
  intros H1 H2.
  rewrite split_at_piece, split_at_sep by
    (try done; intros a1 a2 Ha Hne; by apply (space_not_started st a1 a2)).
  f_equal. apply split_at_end. intros a1 a2 Ha Hne.
  rewrite <- (append_nil_r a2). by apply (space_not_started zp a1 a2).
Qed.

Lemma nonempty_neq (s : string) : nonempty s = true -> s <> EmptyString.
Proof. by destruct s. Qed.

(** The address text splits back into the fields it was joined from. *)
Lemma prefill_address_of (f : Fields) :
  round_trips f = true -> prefill (nameEdit f) (address_of f) = f.
Proof.
  unfold round_trips, validateInputs. rewrite !andb_true_iff, !negb_true_iff.
  intros (((((((((((((Hn & Hs) & Hc) & Hst) & Hz) & Hco) & _) & _)
                 & H1) & H2) & H3) & H4) & H5) & H6).
  unfold prefill, address_of, split_skip_empty.
  replace (streetEdit f ++ ", " ++ cityEdit f ++ ", " ++ stateEdit f ++ " " ++
           zipEdit f ++ ", " ++ countryEdit f)%string
    with (streetEdit f ++ ", " ++ cityEdit f ++ ", " ++
          (stateEdit f ++ " " ++ zipEdit f) ++ ", " ++ countryEdit f)%string
    by (by rewrite !append_assoc).
  rewrite split_address by done.
  assert ((stateEdit f ++ " " ++ zipEdit f)%string <> EmptyString) as Hsz.
  { apply nonempty_neq in Hst. by destruct (stateEdit f). }
  apply nonempty_neq in Hs, Hc, Hst, Hz, Hco.
  rewrite filter_all.
  2: { intros x Hx. repeat (apply elem_of_cons in Hx as [->|Hx]; [done|]).
       by apply elem_of_nil in Hx. }
  rewrite split_state_zip by done.
  rewrite filter_all.
  2: { intros x Hx. repeat (apply elem_of_cons in Hx as [->|Hx]; [done|]).
       by apply elem_of_nil in Hx. }
  by destruct f.
Qed.

End AddressText.

Section OrganizationRoundTrip.
Import Text DonationTracker OrganizationDialog.
Context {real : Type}.

(** X10.  The dialog of [setOrganization] shows again what was saved, when
    the fields are such that the address text can be split back: each field
    filled in and free of NUL, no [", "] in street, city and country nor in
    state and ZIP code put together, no space in state and ZIP code.  The
    name and the address read from the store are then the name and the five
    address fields joined with [", "] and a space. *)
Theorem setOrganization_round_trip (db : Db real) (f : Fields) :
  round_trips f = true ->
  getOrganizationDetails true (MainWindow.setOrganization true db f) =
    Some (nameEdit f, address_of f) /\
  MainWindow.setOrganization_prefill true (MainWindow.setOrganization true db f) = f.
Proof.
  intros Hrt. pose proof Hrt as Hrt'.
  unfold round_trips in Hrt'. rewrite !andb_true_iff in Hrt'.
  destruct Hrt' as ((((((((Hv & Hn1) & Hn2) & _) & _) & _) & _) & _) & _).
  assert (getOrganizationDetails true (MainWindow.setOrganization true db f) =
          Some (nameEdit f, address_of f)) as Hget.
  { unfold MainWindow.setOrganization. rewrite Hv.
    cbn [setOrganizationDetails snd getOrganizationDetails organization].
    by rewrite !c_str_id. }
  split; [done|]. unfold MainWindow.setOrganization_prefill. rewrite Hget.
  by apply prefill_address_of.
Qed.

End OrganizationRoundTrip.

Lemma setOrganization_round_trip_witness :
  let f := OrganizationDialog.mkFields "Helping Hands" "1 Main St"
             "Springfield" "IL" "62701" "USA" in
  DonationTracker.getOrganizationDetails true
    (MainWindow.setOrganization true (@createTables Z) f) =
    Some ("Helping Hands", "1 Main St, Springfield, IL 62701, USA")%string /\
  MainWindow.setOrganization_prefill true
    (MainWindow.setOrganization true (@createTables Z) f) = f.
Proof.
  cbn zeta.
  apply (setOrganization_round_trip (@createTables Z)
           (OrganizationDialog.mkFields "Helping Hands" "1 Main St"
              "Springfield" "IL" "62701" "USA")).
  reflexivity.
Defined.

(** A state of two words does not come back: it is shown with the ZIP code
    appended, and the ZIP code field is shown empty. *)
Example setOrganization_two_word_state :
  let f := OrganizationDialog.mkFields "Helping Hands" "1 Main St"
             "Albany" "New York" "12207" "USA" in
  OrganizationDialog.validateInputs f = true /\
  MainWindow.setOrganization_prefill true
    (MainWindow.setOrganization true (@createTables Z) f) =
  OrganizationDialog.mkFields "Helping Hands" "1 Main St" "Albany"
    "New York 12207" "" "USA".
Proof. vm_compute. split; reflexivity. Qed.

(** ** Letters: nothing to write, deleted donors, other files *)

Section LetterEdges.
Import Text Sqlite DonationTracker.
Context {real : Type}.
Variable SUM : list real -> real.
Variable number_f2 : real -> string.
Variable today : string.
Variable arg : string -> string -> string.

Lemma omap_none {A B : Type} (f : A -> option B) (l : list A) :
  (forall x, x ∈ l -> f x = None) -> omap f l = [].
Proof.
  induction l as [|x l IH]; intros H; [done|]. cbn [omap list_omap].
  rewrite (H x) by left. apply IH. intros y Hy. apply H. by right.
Qed.

Lemma letter_rows_letter_of (db : Db real) (year : Z) :
  letter_rows SUM db year = omap (letter_of SUM db year) (scan (donors db)).
Proof. by rewrite letter_rows_eq_spec. Qed.

(** X11.  When no donor owns a donation whose date starts with the year
    (an empty store, a year without gifts, gifts recorded only under ids
    that no donor has), [generateDonationLetters] opens no file, leaves the
    files as they are and returns [true]. *)
Theorem letters_nothing_to_write (db : Db real) (year : Z) can_open fs :
  (forall k don, donations db !! k = Some don ->
     String.substring 0 4 (date don) = to_string year ->
     donors db !! donor_id don = None) ->
  generateDonationLetters SUM number_f2 today arg true can_open db fs year =
  mkRun true fs [].
Proof.
  intros Hnone. rewrite letters_unfold, letter_rows_letter_of, omap_none; [done|].
  intros [id d] Hd. apply elem_of_scan in Hd. unfold letter_of.
  destruct (year_donations db year (id, d).1) as [|[k don] ms] eqn:E; [done|].
  assert ((k, don) ∈ year_donations db year id) as Hin by (cbn in E; rewrite E; left).
  unfold year_donations in Hin.
  apply list_elem_of_filter in Hin as [[Hdon Hy] Hin]. apply elem_of_scan in Hin.
  cbn in Hdon, Hy. specialize (Hnone k don Hin Hy). congruence.
Qed.

(** X12.  After [deleteDonor(id)] the letter query gives the rows of the
    other donors, each with the total it had, and no row for the deleted
    donor: the donations left behind under its id reach no letter. *)
Theorem letters_after_deleteDonor (db : Db real) (id year : Z) :
  letter_rows SUM (deleteDonor true db id).2 year =
    omap (letter_of SUM db year)
         (filter (fun d : Z * Donor => d.1 <> id) (scan (donors db))) /\
  letter_rows SUM db year = omap (letter_of SUM db year) (scan (donors db)).
Proof.
  split; [|apply letter_rows_letter_of].
  rewrite letter_rows_letter_of. cbn [deleteDonor snd donors].
  by rewrite scan_delete.
Qed.

(** X13.  A run of [generateDonationLetters] changes no file but the ones
    it names for its rows and manages to open: any other path holds what it
    held before.  A run whose query cannot be prepared changes no file. *)
Theorem letters_touch_only_their_files (db : Db real) (year : Z) can_open fs p :
  let run := generateDonationLetters SUM number_f2 today arg true can_open db fs year in
  (files run !! p = fs !! p \/
   (can_open p = true /\
    exists r, r ∈ letter_rows SUM db year /\
              fileName arg (first_name r.1) (last_name r.1) year = p)) /\
  files (generateDonationLetters SUM number_f2 today arg false can_open db fs year)
    = fs.
Proof.
  cbn zeta. split; [|done]. rewrite letters_unfold, loop_files.
  destruct (last _) as [r|] eqn:El; [|by left].
  right. apply last_Some_elem_of, list_elem_of_filter in El as [[Hp Ho] Hr].
  split; [done|]. by exists r.
Qed.

End LetterEdges.

Lemma letters_nothing_to_write_witness :
  Cents.letters true (fun _ => false) Cents.db2 ∅ 1999 =
  DonationTracker.mkRun true ∅ [].
Proof.
  apply (letters_nothing_to_write Cents.SUM Cents.number_f2 Cents.today Cents.arg
           Cents.db2 1999 (fun _ => false) ∅).
  intros k don Hk Hy. exfalso.
  assert ((k, don) ∈ Sqlite.scan (donations Cents.db2)) as Hin
    by (by apply elem_of_scan).
  assert (Sqlite.scan (donations Cents.db2) =
          [(1, mkDonation 1 1000 "2024-03-05" "cash");
           (2, mkDonation 1 2550 "2024-11-30" "check");
           (3, mkDonation 1 700 "2023-12-31" "cash")]%string) as Hs
    by (vm_compute; reflexivity).
  rewrite Hs in Hin.
  repeat (apply elem_of_cons in Hin as [[= -> ->]|Hin];
          [vm_compute in Hy; discriminate Hy|]).
  by apply elem_of_nil in Hin.
Defined.

(** ** The slots of the window *)

Section Slots.
Import Text Sqlite DonationTracker MainWindow.
Context {real : Type}.
Implicit Types (w : MainWindow real) (db : Db real).

Lemma sorted_head_min (x : Z) (l : list Z) :
  StronglySorted Z.lt (x :: l) -> forall y, y ∈ x :: l -> x <= y.
Proof.
  intros Hs y Hy. apply StronglySorted_inv in Hs as [_ Hall].
  apply elem_of_cons in Hy as [->|Hy]; [lia|].
  rewrite Forall_forall in Hall. specialize (Hall y Hy). lia.
Qed.

Lemma sorted_last_max (l : list Z) (x : Z) :
  StronglySorted Z.lt l -> last l = Some x -> forall y, y ∈ l -> y <= x.
Proof.
  induction 1 as [|z l Hs IH Hall]; intros Hl y Hy; [done|].
  rewrite Forall_forall in Hall.
  destruct l as [|z' l'].
  - injection Hl as <-. apply elem_of_cons in Hy as [->|Hy]; [lia|].
    by apply elem_of_nil in Hy.
  - change (last (z' :: l') = Some x) in Hl.
    apply elem_of_cons in Hy as [->|Hy]; [|by apply IH].
    assert (x ∈ z' :: l') as Hx by (by apply last_Some_elem_of).
    specialize (Hall x Hx). lia.
Qed.

Lemma loadDonor_found io w i id :
  id <> -1 -> is_Some (getDonorDetails io (tracker w) id) ->
  loadDonor io (set_index w i) id = mkWindow (tracker w) (donorIds w) i id.
Proof.
  intros Hne [d Hd]. unfold loadDonor, set_index. cbn.
  rewrite Hd. by destruct (Z.eqb_spec id (-1)).
Qed.

Lemma populate_fields w :
  tracker (populateDonorIds true w) = tracker w /\
  donorIds (populateDonorIds true w) = getAllDonorIds true (tracker w) /\
  currentDonorId (populateDonorIds true w) = currentDonorId w.
Proof. done. Qed.

(** X14.  The buttons say what the slots will do.  On a cursor as it
    stands between two events, Previous (and First) is enabled exactly when
    the index is above 0 and Next (and Last) exactly when it is below
    [length - 1]; the slot of a disabled Previous or Next changes nothing,
    the slot of an enabled one moves the index by one; with no donor at all
    the four buttons are disabled. *)
Theorem buttons_match_slots io w :
  cursor_ok w ->
  let b := updateNavigationButtonStates w in
  let i := currentDonorIndex w in
  let n := Z.of_nat (length (donorIds w)) in
  firstButton b = previousButton b /\ lastButton b = nextButton b /\
  (previousButton b = true <-> 0 < i) /\
  (nextButton b = true <-> i < n - 1) /\
  (previousButton b = false -> loadPreviousDonor io w = Some w) /\
  (nextButton b = false -> loadNextDonor io w = Some w) /\
  (previousButton b = true ->
     exists w', loadPreviousDonor io w = Some w' /\ currentDonorIndex w' = i - 1) /\
  (nextButton b = true ->
     exists w', loadNextDonor io w = Some w' /\ currentDonorIndex w' = i + 1) /\
  (donorIds w = [] -> b = mkButtons false false false false).
Proof.
  intros Hok. pose proof (next_condition w Hok) as Hnext.
  destruct Hok as [Hbig Hok]. cbn zeta.
  unfold updateNavigationButtonStates, loadPreviousDonor, loadNextDonor.
  rewrite Hnext.
  destruct Hok as [[Hnil Hi]|[H0 Hlt]].
  - rewrite Hnil, Hi. cbn. repeat split; try done; try lia.
  - destruct (donorIds w) as [|x l] eqn:El; [cbn in Hlt; lia|].
    rewrite <- El in *. cbn [firstButton previousButton nextButton lastButton].
    split; [done|]. split; [done|].
    split; [apply Z.ltb_lt|]. split; [apply Z.ltb_lt|].
    split; [by intros ->|]. split; [by intros ->|]. split; [|split].
    + intros Hb. rewrite Hb. apply Z.ltb_lt in Hb.
      destruct (at_index_in_range (donorIds w) (currentDonorIndex w - 1))
        as [id Hid]; [lia|].
      cbn [donorIds currentDonorIndex set_index]. rewrite Hid. by eexists.
    + intros Hb. rewrite Hb. apply Z.ltb_lt in Hb.
      destruct (at_index_in_range (donorIds w) (currentDonorIndex w + 1))
        as [id Hid]; [lia|].
      cbn [donorIds currentDonorIndex set_index]. rewrite Hid. by eexists.
    + intros Hnil. by rewrite Hnil in El.
Qed.

(** X15.  [loadFirstDonor] and [loadLastDonor] reload the sequence from
    the store.  With donors in the store (none under the id [-1], which
    stands for "no donor") the first puts the cursor on index 0 and loads
    the donor of the smallest id, the second puts it on the last index and
    loads the donor of the largest id; with an empty store both load
    nothing. *)
Theorem loadFirst_loadLast_position w :
  donors (tracker w) !! (-1) = None ->
  let wf := loadFirstDonor true w in
  let wl := loadLastDonor true w in
  let ids := getAllDonorIds true (tracker w) in
  donorIds wf = ids /\ donorIds wl = ids /\
  tracker wf = tracker w /\ tracker wl = tracker w /\
  (ids = [] -> currentDonorId wf = -1 /\ currentDonorId wl = -1) /\
  (forall id rest, ids = id :: rest ->
     currentDonorIndex wf = 0 /\ currentDonorId wf = id /\
     forall k, is_Some (donors (tracker w) !! k) -> id <= k) /\
  (forall id, last ids = Some id ->
     currentDonorIndex wl = Z.of_nat (length ids) - 1 /\ currentDonorId wl = id /\
     forall k, is_Some (donors (tracker w) !! k) -> k <= id).
Proof.
  intros Hm1. cbn zeta.
  assert (forall id, id ∈ getAllDonorIds true (tracker w) ->
            id <> -1 /\ is_Some (getDonorDetails true (tracker w) id)) as Hin.
  { intros id Hid. apply elem_of_getAllDonorIds in Hid. split; [|done].
    intros ->. rewrite Hm1 in Hid. by destruct Hid. }
  pose proof (getAllDonorIds_sorted (tracker w)) as Hsorted.
  assert (forall k, is_Some (donors (tracker w) !! k) ->
            k ∈ getAllDonorIds true (tracker w)) as Hall
    by (intros k Hk; by apply elem_of_getAllDonorIds).
  unfold loadFirstDonor, loadLastDonor.
  set (w1 := populateDonorIds true w).
  assert (tracker w1 = tracker w) as Ht by done.
  assert (donorIds w1 = getAllDonorIds true (tracker w)) as Hids by done.
  clearbody w1. rewrite <- Hids in *. clear Hids.
  destruct (donorIds w1) as [|id0 rest0] eqn:El.
  - cbn. repeat split; try done.
  - rewrite <- El in *.
    assert (id0 ∈ donorIds w1) as H0 by (rewrite El; left).
    destruct (Hin id0 H0) as [Hne0 Hd0]. rewrite <- Ht in Hd0.
    rewrite (loadDonor_found true w1 0 id0 Hne0 Hd0).
    destruct (last (donorIds w1)) as [idl|] eqn:Ell;
      [|apply last_None in Ell; congruence].
    assert (idl ∈ donorIds w1) as Hl by (by apply last_Some_elem_of).
    destruct (Hin idl Hl) as [Hnel Hdl]. rewrite <- Ht in Hdl.
    rewrite (loadDonor_found true w1 _ idl Hnel Hdl).
    cbn [donorIds tracker currentDonorIndex currentDonorId].
    split; [done|]. split; [done|]. split; [done|]. split; [done|].
    split; [by rewrite El|]. split.
    + intros id rest Hid. rewrite El in Hid. injection Hid as <- <-.
      split; [done|]. split; [done|]. intros k Hk.
      rewrite El in Hsorted. apply (sorted_head_min id0 rest0 Hsorted).
      rewrite <- El. by apply Hall.
    + intros id [= <-]. split; [done|]. split; [done|]. intros k Hk.
      apply (sorted_last_max (donorIds w1) idl Hsorted Ell). by apply Hall.
Qed.

End Slots.

Section SlotsOnDonors.
Import Text Sqlite DonationTracker MainWindow.
Context {real : Type}.
Variable emailRegex : string -> bool.
Implicit Types (w : MainWindow real) (db : Db real).

Lemma getAllDonorIds_addDonor db d :
  getAllDonorIds true (DonationTracker.addDonor true db d).2 =
  getAllDonorIds true db ++ [next_rowid (donors_seq db) (donors db)].
Proof.
  rewrite !getAllDonorIds_scan. cbn [DonationTracker.addDonor snd donors].
  rewrite scan_insert_last, fmap_app; [done|].
  intros k v. apply next_rowid_above.
Qed.

Lemma next_rowid_pos {A : Type} (seq : Z) (t : gmap Z A) : 1 <= next_rowid seq t.
Proof. pose proof (max_rowid_nonneg t). unfold next_rowid. lia. Qed.

(** What [validateInputs] refuses: an empty field, or an e-mail text in
    which the expression has no match. *)
Lemma validateInputs_false d :
  DonorDialog.validateInputs emailRegex d = false <->
  (first_name d = EmptyString \/ last_name d = EmptyString \/
   street d = EmptyString \/ city d = EmptyString \/
   state d = EmptyString \/ zip d = EmptyString \/
   country d = EmptyString \/ phone d = EmptyString \/
   email d = EmptyString \/ emailRegex (email d) = false).
Proof.
  unfold DonorDialog.validateInputs.
  destruct d as [f l st ci sa z co p e]. cbn [first_name last_name street city
    state zip country phone email].
  destruct f, l, st, ci, sa, z, co, p, e; cbn;
    try (split; [intros _|done]; tauto).
  destruct (emailRegex _); cbn; [|tauto].
  split; [done|]. intros H. repeat (destruct H as [H|H]; [done|]). done.
Qed.

(** X16.  The slot [addDonor] stores nothing and leaves the window as it is
    when [validateInputs] refuses the fields, that is when one of the nine
    is empty or the e-mail text has no match of the expression.  When the
    fields are accepted and the insertion runs, it leaves the cursor on the
    donor just added: the sequence is the former list of ids with the new
    id at its end, the index is the last one, the loaded donor is the new
    one, and its details are the fields entered.  When the insertion fails
    the window is as before. *)
Theorem addDonor_slot_selects_new w d :
  let ids := getAllDonorIds true (tracker w) in
  let id := next_rowid (donors_seq (tracker w)) (donors (tracker w)) in
  (DonorDialog.validateInputs emailRegex d = true ->
     let w' := MainWindow.addDonor emailRegex true w d in
     tracker w' = (DonationTracker.addDonor true (tracker w) d).2 /\
     donorIds w' = ids ++ [id] /\
     currentDonorIndex w' = Z.of_nat (length ids) /\
     currentDonorId w' = id /\
     getDonorDetails true (tracker w') (currentDonorId w') = Some (bind_donor d)) /\
  ((first_name d = EmptyString \/ last_name d = EmptyString \/
    street d = EmptyString \/ city d = EmptyString \/
    state d = EmptyString \/ zip d = EmptyString \/
    country d = EmptyString \/ phone d = EmptyString \/
    email d = EmptyString \/ emailRegex (email d) = false) ->
     forall io, MainWindow.addDonor emailRegex io w d = w) /\
  MainWindow.addDonor emailRegex false w d = w.
Proof.
  cbn zeta.
  set (ids := getAllDonorIds true (tracker w)).
  set (id := next_rowid (donors_seq (tracker w)) (donors (tracker w))).
  set (db' := (DonationTracker.addDonor true (tracker w) d).2).
  split; [|split].
  - intros Hv.
    assert (getDonorDetails true db' id = Some (bind_donor d)) as Hget.
    { unfold getDonorDetails, db'. cbn [DonationTracker.addDonor snd donors].
      apply lookup_insert_eq. }
    assert (MainWindow.addDonor emailRegex true w d =
            mkWindow db' (ids ++ [id]) (Z.of_nat (length (ids ++ [id])) - 1) id)
      as Hw.
    { unfold MainWindow.addDonor, loadLastDonor. rewrite Hv.
      cbn [DonationTracker.addDonor fst].
      set (w1 := populateDonorIds true (populateDonorIds true _)).
      assert (donorIds w1 = ids ++ [id]) as Hids
        by apply getAllDonorIds_addDonor.
      assert (tracker w1 = db') as Ht by done.
      clearbody w1. rewrite Hids, last_snoc.
      rewrite loadDonor_found.
      - by rewrite Hids, Ht.
      - pose proof (next_rowid_pos (donors_seq (tracker w)) (donors (tracker w))).
        unfold id. lia.
      - rewrite Ht, Hget. by eexists. }
    rewrite Hw. cbn [tracker donorIds currentDonorIndex currentDonorId].
    split; [done|]. split; [done|]. split; [|done].
    rewrite length_app. cbn [length]. lia.
  - intros Hbad io. apply validateInputs_false in Hbad.
    unfold MainWindow.addDonor. by rewrite Hbad.
  - unfold MainWindow.addDonor.
    by destruct (DonorDialog.validateInputs emailRegex d).
Qed.

(** X17.  The slot [deleteDonor] does nothing when no donor is loaded.
    Otherwise, when the deletion runs, the loaded donor is gone from the
    store and from the sequence, which keeps the other ids, and the cursor
    is on index 0 with the donor of the smallest remaining id loaded, or on
    nothing when no donor is left. *)
Theorem deleteDonor_slot_moves_to_first w :
  in_sync w ->
  let w' := MainWindow.deleteDonor true w in
  let id := currentDonorId w in
  (id = -1 -> w' = w) /\
  (id <> -1 ->
     tracker w' = (DonationTracker.deleteDonor true (tracker w) id).2 /\
     getDonorDetails true (tracker w') id = None /\
     donorIds w' = filter (fun k => k <> id) (donorIds w) /\
     (donorIds w' = [] -> currentDonorIndex w' = -1 /\ currentDonorId w' = -1) /\
     (forall id0 rest, donorIds w' = id0 :: rest ->
        currentDonorIndex w' = 0 /\ currentDonorId w' = id0)).
Proof.
  intros (Hids & Hpos & _). cbn zeta. unfold MainWindow.deleteDonor.
  destruct (Z.eqb_spec (currentDonorId w) (-1)) as [He|Hne]; [done|].
  split; [done|]. intros _.
  cbn [DonationTracker.deleteDonor fst].
  set (db' := (DonationTracker.deleteDonor true (tracker w) (currentDonorId w)).2).
  assert (getAllDonorIds true db' =
          filter (fun k => k <> currentDonorId w) (donorIds w)) as Hids'.
  { rewrite Hids, !getAllDonorIds_scan. unfold db'.
    cbn [DonationTracker.deleteDonor snd donors]. rewrite scan_delete.
    induction (scan (donors (tracker w))) as [|[k v] l IH]; [done|].
    rewrite fmap_cons, !filter_cons. cbn [fst].
    destruct (decide (k <> currentDonorId w)); [|done]. by rewrite fmap_cons, IH. }
  assert (forall k, k ∈ getAllDonorIds true db' ->
            k <> -1 /\ is_Some (getDonorDetails true db' k)) as Hin.
  { intros k Hk. apply elem_of_getAllDonorIds in Hk. split; [|done].
    destruct Hk as [v Hk]. unfold db' in Hk.
    cbn [DonationTracker.deleteDonor snd donors] in Hk.
    apply lookup_delete_Some in Hk as [_ Hk].
    assert (1 <= k) by (apply Hpos; by eexists). lia. }
  unfold loadFirstDonor.
  set (w0 := populateDonorIds true (set_tracker w _)).
  assert (tracker w0 = db') as Ht0 by done.
  assert (currentDonorId w0 = currentDonorId w) as Hc0 by done.
  set (w1 := populateDonorIds true w0).
  assert (tracker w1 = db') as Ht by done.
  assert (donorIds w1 = getAllDonorIds true db') as Hd1 by done.
  assert (donorIds w1 = [] -> currentDonorIndex w1 = -1) as Hi1.
  { intros Hnil. unfold w1, populateDonorIds. cbn [currentDonorIndex currentDonorId].
    rewrite Hc0. destruct (Z.eqb_spec (currentDonorId w) (-1)); [done|].
    rewrite Ht0, <- Hd1, Hnil. done. }
  clearbody w1. clear w0 Ht0 Hc0. rewrite <- Hd1 in Hids', Hin.
  destruct (donorIds w1) as [|id0 rest0] eqn:El.
  - cbn [tracker donorIds currentDonorIndex currentDonorId loadDonor].
    rewrite Ht, <- Hids'. split; [done|].
    split; [unfold db', getDonorDetails;
            cbn [DonationTracker.deleteDonor snd donors]; apply lookup_delete_eq|].
    split; [by rewrite El|]. rewrite El.
    split; [|by intros ? ? [=]]. intros _.
    split; [by apply Hi1|done].
  - assert (id0 ∈ id0 :: rest0) as H0 by left.
    destruct (Hin id0 H0) as [Hne0 Hd0]. rewrite <- Ht in Hd0.
    rewrite (loadDonor_found true w1 0 id0 Hne0 Hd0).
    cbn [tracker donorIds currentDonorIndex currentDonorId].
    rewrite Ht, El, <- Hids'. split; [done|].
    split; [unfold db', getDonorDetails;
            cbn [DonationTracker.deleteDonor snd donors]; apply lookup_delete_eq|].
    split; [done|]. split; [by intros [=]|].
    intros id1 rest1 [= <- <-]. done.
Qed.

(** X18.  A click on a row of the donor table selects that donor when its
    id is in the sequence: the cursor goes to the position of the id and
    the donor is loaded, the sequence staying as it is.  A click on an id
    that is not in the sequence changes nothing. *)
Theorem click_selects_listed_donor w donorId :
  in_sync w ->
  let w' := onDonorTableItemClicked true w donorId in
  (donorId ∈ donorIds w ->
     at_index (donorIds w) (currentDonorIndex w') = Some donorId /\
     currentDonorId w' = donorId /\
     donorIds w' = donorIds w /\ tracker w' = tracker w) /\
  (donorId ∉ donorIds w -> w' = w).
Proof.
  intros (Hids & Hpos & _). cbn zeta. unfold onDonorTableItemClicked.
  destruct (find_distance donorId (donorIds w)) as [i|] eqn:Ef.
  - pose proof (find_distance_Some _ _ _ Ef) as [Hi Hl].
    assert (donorId ∈ donorIds w) as Hin by (by eapply list_elem_of_lookup_2).
    split; [|done]. intros _.
    rewrite Hids in Hin. apply elem_of_getAllDonorIds in Hin.
    rewrite loadDonor_found; [| |done].
    + cbn [donorIds tracker currentDonorIndex currentDonorId].
      split; [|done]. apply at_index_Some. split; [lia|done].
    + assert (1 <= donorId) by (by apply Hpos). lia.
  - split; [|done]. intros Hin. by apply find_distance_None in Ef.
Qed.

(** X19.  The slot [editDonor] keeps the cursor where it is.  With a donor
    loaded, when [validateInputs] accepts the fields and the update runs,
    the fields of that donor are replaced, and the sequence, the index and
    the loaded id are as before; when [validateInputs] refuses the fields
    (an empty field, an e-mail text without a match) nothing is updated and
    the window is as before. *)
Theorem editDonor_slot_keeps_cursor w d :
  in_sync w -> currentDonorId w <> -1 ->
  (DonorDialog.validateInputs emailRegex d = true ->
     let w' := MainWindow.editDonor emailRegex true w d in
     getDonorDetails true (tracker w') (currentDonorId w) = Some (bind_donor d) /\
     donorIds w' = donorIds w /\
     currentDonorIndex w' = currentDonorIndex w /\
     currentDonorId w' = currentDonorId w /\
     getAllDonorIds true (tracker w') = donorIds w) /\
  ((first_name d = EmptyString \/ last_name d = EmptyString \/
    street d = EmptyString \/ city d = EmptyString \/
    state d = EmptyString \/ zip d = EmptyString \/
    country d = EmptyString \/ phone d = EmptyString \/
    email d = EmptyString \/ emailRegex (email d) = false) ->
     forall io, MainWindow.editDonor emailRegex io w d = w).
Proof.
  intros (Hids & Hpos & Hcur) Hne. split.
  - intros Hv. cbn zeta.
    assert (is_Some (donors (tracker w) !! currentDonorId w)) as [d0 Hd0].
    { destruct Hcur as [(_ & _ & ?)|Hat]; [done|].
      apply at_index_Some in Hat as [_ Hat].
      apply list_elem_of_lookup_2 in Hat. rewrite Hids in Hat.
      by apply elem_of_getAllDonorIds. }
    unfold MainWindow.editDonor, getDonorDetails.
    destruct (Z.eqb_spec (currentDonorId w) (-1)); [done|].
    rewrite Hd0, Hv. cbn [updateDonor fst snd]. rewrite Hd0.
    unfold loadDonor, set_tracker, getDonorDetails.
    cbn [tracker donorIds currentDonorIndex currentDonorId donors].
    rewrite lookup_insert_eq.
    destruct (Z.eqb_spec (currentDonorId w) (-1)); [done|].
    split; [done|]. split; [done|]. split; [done|]. split; [done|].
    rewrite Hids, !getAllDonorIds_scan. cbn [donors].
    apply scan_keys_insert_present. by exists d0.
  - intros Hbad io. apply validateInputs_false in Hbad.
    unfold MainWindow.editDonor. rewrite Hbad.
    destruct (Z.eqb _ _); [done|]. by destruct (getDonorDetails _ _ _).
Qed.

End SlotsOnDonors.

(** ** The slots on the window of a session *)

Lemma window_ab_in_sync : MainWindow.in_sync Cents.window_ab.
Proof.
  assert (MainWindow.in_sync (MainWindow.new true (@createTables Z))) as H0.
  { apply new_in_sync. intros k [v Hk]. cbn in Hk. by rewrite lookup_empty in Hk. }
  pose proof (handle_in_sync Cents.emailRegex _
                (MainWindow.AddDonor true Cents.ann) _ H0 eq_refl) as H1.
  exact (handle_in_sync Cents.emailRegex _
           (MainWindow.AddDonor true Cents.bob) _ H1 eq_refl).
Qed.

Lemma window_ab_fields :
  MainWindow.donorIds Cents.window_ab = [1; 2] /\
  MainWindow.currentDonorIndex Cents.window_ab = 1 /\
  MainWindow.currentDonorId Cents.window_ab = 2.
Proof. vm_compute. repeat split. Qed.

Lemma buttons_match_slots_witness :
  MainWindow.updateNavigationButtonStates Cents.window_ab =
    MainWindow.mkButtons true true false false /\
  MainWindow.loadNextDonor true Cents.window_ab = Some Cents.window_ab /\
  exists w', MainWindow.loadPreviousDonor true Cents.window_ab = Some w' /\
             MainWindow.currentDonorIndex w' = 0.
Proof.
  destruct (buttons_match_slots true Cents.window_ab)
    as (_ & _ & _ & _ & _ & Hn & Hp & _).
  { split; [vm_compute; reflexivity|]. right. split; vm_compute; congruence. }
  split; [vm_compute; reflexivity|].
  split; [apply Hn; vm_compute; reflexivity|].
  destruct Hp as (w' & Hw' & Hi); [vm_compute; reflexivity|].
  exists w'. split; [exact Hw'|]. rewrite Hi. vm_compute. reflexivity.
Defined.

Lemma loadFirst_loadLast_position_witness :
  MainWindow.currentDonorId (MainWindow.loadFirstDonor true Cents.window_ab) = 1 /\
  MainWindow.currentDonorIndex (MainWindow.loadFirstDonor true Cents.window_ab) = 0 /\
  MainWindow.currentDonorId (MainWindow.loadLastDonor true Cents.window_ab) = 2 /\
  MainWindow.currentDonorIndex (MainWindow.loadLastDonor true Cents.window_ab) = 1.
Proof.
  destruct (loadFirst_loadLast_position Cents.window_ab eq_refl)
    as (_ & _ & _ & _ & _ & Hf & Hl).
  destruct (Hf 1 [2] eq_refl) as (Hf0 & Hf1 & _).
  destruct (Hl 2 eq_refl) as (Hl0 & Hl1 & _).
  split; [exact Hf1|]. split; [exact Hf0|]. split; [exact Hl1|exact Hl0].
Defined.

Lemma deleteDonor_slot_moves_to_first_witness :
  let w' := MainWindow.deleteDonor true Cents.window_ab in
  MainWindow.donorIds w' = [1] /\
  MainWindow.currentDonorIndex w' = 0 /\
  MainWindow.currentDonorId w' = 1 /\
  DonationTracker.getDonorDetails true (MainWindow.tracker w') 2 = None.
Proof.
  cbn zeta.
  destruct (deleteDonor_slot_moves_to_first Cents.window_ab window_ab_in_sync)
    as (_ & H).
  destruct H as (_ & Hg & Hids & _ & Hpos); [vm_compute; congruence|].
  assert (MainWindow.donorIds (MainWindow.deleteDonor true Cents.window_ab) = [1])
    as Hd by (rewrite Hids; vm_compute; reflexivity).
  destruct (Hpos 1 [] Hd) as (Hi & Hc).
  split; [exact Hd|]. split; [exact Hi|]. split; [exact Hc|exact Hg].
Defined.

Lemma click_selects_listed_donor_witness :
  MainWindow.currentDonorId
    (MainWindow.onDonorTableItemClicked true Cents.window_ab 1) = 1 /\
  MainWindow.onDonorTableItemClicked true Cents.window_ab 7 = Cents.window_ab.
Proof.
  destruct (click_selects_listed_donor Cents.window_ab 1 window_ab_in_sync)
    as (H1 & _).
  destruct (click_selects_listed_donor Cents.window_ab 7 window_ab_in_sync)
    as (_ & H7).
  split.
  - apply H1. vm_compute. left.
  - apply H7. intros Hin. vm_compute in Hin.
    apply elem_of_cons in Hin as [Hin|Hin]; [discriminate Hin|].
    apply elem_of_cons in Hin as [Hin|Hin]; [discriminate Hin|].
    by apply elem_of_nil in Hin.
Defined.

Lemma editDonor_slot_keeps_cursor_witness :
  let w' := MainWindow.editDonor Cents.emailRegex true Cents.window_ab Cents.ann in
  DonationTracker.getDonorDetails true (MainWindow.tracker w') 2 = Some Cents.ann /\
  MainWindow.donorIds w' = [1; 2] /\
  MainWindow.currentDonorIndex w' = 1 /\
  MainWindow.currentDonorId w' = 2 /\
  MainWindow.editDonor Cents.emailRegex true Cents.window_ab
    (mkDonor "Ann" "Lee" "1 Main St" "Springfield" "IL" "62701" "USA"
             "555-0100" "ann at example.org") = Cents.window_ab.
Proof.
  cbn zeta.
  destruct (editDonor_slot_keeps_cursor Cents.emailRegex Cents.window_ab
              Cents.ann window_ab_in_sync) as (Hok & _);
    [vm_compute; congruence|].
  destruct (editDonor_slot_keeps_cursor Cents.emailRegex Cents.window_ab
              (mkDonor "Ann" "Lee" "1 Main St" "Springfield" "IL" "62701" "USA"
                       "555-0100" "ann at example.org") window_ab_in_sync)
    as (_ & Hbad); [vm_compute; congruence|].
  destruct (Hok eq_refl) as (Hg & Hids & Hi & Hc & _).
  split; [exact Hg|]. split; [exact Hids|]. split; [exact Hi|].
  split; [exact Hc|]. apply Hbad. do 9 right. vm_compute. reflexivity.
Defined.

Lemma addDonor_slot_selects_new_witness :
  let w0 := MainWindow.new true (@createTables Z) in
  let w' := MainWindow.addDonor Cents.emailRegex true w0 Cents.ann in
  MainWindow.donorIds w' = [1] /\
  MainWindow.currentDonorIndex w' = 0 /\
  MainWindow.currentDonorId w' = 1 /\
  DonationTracker.getDonorDetails true (MainWindow.tracker w') 1 = Some Cents.ann /\
  MainWindow.addDonor Cents.emailRegex true w0
    (mkDonor "Ann" "Lee" "1 Main St" "Springfield" "IL" "62701" "USA"
             "" "ann@example.org") = w0.
Proof.
  cbn zeta.
  destruct (addDonor_slot_selects_new Cents.emailRegex
              (MainWindow.new true (@createTables Z)) Cents.ann)
    as (Hok & _ & _).
  destruct (addDonor_slot_selects_new Cents.emailRegex
              (MainWindow.new true (@createTables Z))
              (mkDonor "Ann" "Lee" "1 Main St" "Springfield" "IL" "62701" "USA"
                       "" "ann@example.org"))
    as (_ & Hbad & _).
  destruct (Hok eq_refl) as (_ & Hids & Hi & Hc & Hg).
  split; [exact Hids|]. split; [exact Hi|]. split; [exact Hc|].
  split; [exact Hg|]. apply Hbad. do 7 right. left. reflexivity.
Defined.

(** X20.  Every window a session reaches, from a fresh file and through
    any events (the three donor slots, with fields accepted or refused by
    [validateInputs] whatever the e-mail expression matches, run or failed,
    the four navigation buttons, clicks on any id, a restart), is in sync
    with the store: the
    sequence is the list of ids the store gives, and the donor at the index
    is the donor loaded, or nothing is loaded over an empty sequence.  In
    such a window no event reads the vector outside its bounds. *)
Theorem session_stays_in_sync {real : Type} (emailRegex : string -> bool)
    (es : list MainWindow.Event) (w : MainWindow.MainWindow real) :
  MainWindow.run emailRegex es = Some w ->
  MainWindow.in_sync w /\
  MainWindow.donorIds w = DonationTracker.getAllDonorIds true (MainWindow.tracker w) /\
  (MainWindow.currentDonorId w <> -1 ->
     is_Some (donors (MainWindow.tracker w) !! MainWindow.currentDonorId w) /\
     MainWindow.at_index (MainWindow.donorIds w) (MainWindow.currentDonorIndex w)
       = Some (MainWindow.currentDonorId w)) /\
  (Z.of_nat (length (MainWindow.donorIds w)) < 2 ^ 63 ->
     forall e, is_Some (MainWindow.handle emailRegex w e)).
Proof.
  intros Hrun. pose proof (run_in_sync emailRegex es w Hrun) as Hs.
  split; [exact Hs|]. split; [apply Hs|]. split.
  - intros Hid. destruct Hs as (Hids & _ & [(_ & _ & Hc)|Hat]); [done|].
    split; [|exact Hat].
    apply elem_of_getAllDonorIds. rewrite <- Hids.
    unfold MainWindow.at_index in Hat.
    destruct (Z.ltb _ 0); [done|]. by eapply list_elem_of_lookup_2.
  - intros Hbig e. by apply handle_defined.
Qed.

Lemma session_stays_in_sync_witness :
  MainWindow.in_sync
    (MainWindow.mkWindow
       (MainWindow.tracker Cents.window_ab) [1; 2] 0 1) /\
  is_Some
    (MainWindow.handle Cents.emailRegex
       (MainWindow.mkWindow
          (MainWindow.tracker Cents.window_ab) [1; 2] 0 1)
       MainWindow.Next).
Proof.
  destruct (session_stays_in_sync Cents.emailRegex
              [MainWindow.AddDonor true Cents.ann; MainWindow.AddDonor true Cents.bob;
               MainWindow.Previous]
              (MainWindow.mkWindow
                 (MainWindow.tracker Cents.window_ab) [1; 2] 0 1))
    as (Hs & _ & _ & Hd).
  { vm_compute. reflexivity. }
  split; [exact Hs|]. apply Hd. vm_compute. reflexivity.
Defined.
